(** * compute_std.py: batch readiness times and their summary statistics

    A shallow embedding of
    [readiness-deletion-times/custom-startup-times/compute_std.py]
    and the properties of its two functions,
    [read_batch_readiness_times] and [main].

    Layout:
    - [PyStr]: Python [str] values as sequences of code points, with the
      string methods the script calls ([strip], [startswith], [split]) and
      the line iteration of a text file;
    - [Binary64]: IEEE-754 double precision on top of [SpecFloat], with the
      conversions the script reaches through [float(...)], [repr] and the
      [.2f] format, and numpy's reductions [mean], [std], [min], [max];
    - [Script]: the two functions of the script, generic in the numeric
      runtime, over a small state-and-exception monad for the file system,
      standard output and process exit;
    - the theorems. *)

From Stdlib Require Import ZArith NArith List Bool String Ascii Lia.
From Stdlib Require Import DecimalString.
From Stdlib Require Import Floats.SpecFloat.
Import ListNotations.

Set Implicit Arguments.

(** ** Python strings *)

Module PyStr.

(** A [str] is a sequence of Unicode code points. *)
Definition char := N.
Definition str := list char.

(** A literal of the script, given in ASCII. *)
Definition lit (s : string) : str :=
  map N_of_ascii (list_ascii_of_string s).
Arguments lit s%_string.

Definition char_eqb (a b : char) : bool := N.eqb a b.

Fixpoint str_eqb (a b : str) : bool :=
  match a, b with
  | [], [] => true
  | x :: a', y :: b' => char_eqb x y && str_eqb a' b'
  | _, _ => false
  end.

(** [str.isspace] on one code point: the ASCII controls 0x09-0x0D and
    0x1C-0x1F, the space, and the Unicode white space characters. *)
Definition isspace (c : char) : bool :=
  ((9 <=? c) && (c <=? 13)
   || (28 <=? c) && (c <=? 32)
   || (c =? 133) || (c =? 160) || (c =? 5760)
   || (8192 <=? c) && (c <=? 8202)
   || (c =? 8232) || (c =? 8233) || (c =? 8239) || (c =? 8287)
   || (c =? 12288))%N.

Fixpoint lstrip (s : str) : str :=
  match s with
  | [] => []
  | c :: s' => if isspace c then lstrip s' else s
  end.

Definition rstrip (s : str) : str := rev (lstrip (rev s)).

(** [s.strip()] *)
Definition strip (s : str) : str := rstrip (lstrip s).

(** [s.startswith(prefix)] *)
Fixpoint startswith (s prefix : str) : bool :=
  match prefix, s with
  | [], _ => true
  | p :: prefix', c :: s' => char_eqb c p && startswith s' prefix'
  | _ :: _, [] => false
  end.

(** [s.split(sep)] for a separator of one character: every occurrence
    cuts, so the result has one more element than [s] has separators. *)
Fixpoint split (sep : char) (s : str) : list str :=
  match s with
  | [] => [[]]
  | c :: s' =>
      if char_eqb c sep then [] :: split sep s'
      else match split sep s' with
           | p :: ps => (c :: p) :: ps
           | [] => [[c]]
           end
  end.

Definition LF : char := 10%N.
Definition CR : char := 13%N.
Definition comma : char := 44%N.

(** Text mode with the default [newline=None]: on reading, ["\r\n"] and a
    lone ["\r"] both become ["\n"]. *)
Fixpoint universal_newlines (s : str) : str :=
  match s with
  | [] => []
  | c :: t =>
      if char_eqb c CR then
        match t with
        | d :: t' =>
            if char_eqb d LF then LF :: universal_newlines t'
            else LF :: universal_newlines t
        | [] => [LF]
        end
      else c :: universal_newlines t
  end.

(** [for line in f]: the text is cut after every ["\n"], which stays at
    the end of its line; a last line without ["\n"] is yielded as it is. *)
Fixpoint lines_from (cur : str) (s : str) : list str :=
  match s with
  | [] => match cur with [] => [] | _ :: _ => [rev cur] end
  | c :: s' =>
      if char_eqb c LF then rev (c :: cur) :: lines_from [] s'
      else lines_from (c :: cur) s'
  end.

Definition file_lines (text : str) : list str :=
  lines_from [] (universal_newlines text).

(** [sep.join(parts)], used to build inputs. *)
Fixpoint join (sep : str) (parts : list str) : str :=
  match parts with
  | [] => []
  | [p] => p
  | p :: ps => p ++ sep ++ join sep ps
  end.

End PyStr.
Import PyStr.

(** ** IEEE-754 double precision *)

Module Binary64.

Local Open Scope Z_scope.

Definition prec : Z := 53.
Definition emax : Z := 1024.

(** A double: [SpecFloat]'s datatype at precision 53. *)
Definition float := spec_float.

Definition nan : float := S754_nan.
Definition inf (neg : bool) : float := S754_infinity neg.

Definition add : float -> float -> float := SFadd prec emax.
Definition sub : float -> float -> float := SFsub prec emax.
Definition mul : float -> float -> float := SFmul prec emax.
Definition div : float -> float -> float := SFdiv prec emax.
Definition sqrt : float -> float := SFsqrt prec emax.

Definition isnan (x : float) : bool :=
  match x with S754_nan => true | _ => false end.

(** [x < y] and [x <= y] of C; both are false when a NaN is compared. *)
Definition ltb (x y : float) : bool := SFltb x y.

(** Same double (every NaN counts as the same value). *)
Definition same (x y : float) : bool :=
  match x, y with
  | S754_zero a, S754_zero b => Bool.eqb a b
  | S754_infinity a, S754_infinity b => Bool.eqb a b
  | S754_nan, S754_nan => true
  | S754_finite a m e, S754_finite b n f =>
      Bool.eqb a b && Pos.eqb m n && Z.eqb e f
  | _, _ => false
  end.

(** The double nearest to an integer (ties to even). *)
Definition of_Z (n : Z) : float := binary_normalize prec emax n 0 false.

Definition one : float := of_Z 1.

(** The exponent a value of magnitude [2^e] is stored with. *)
Definition fexp64 : Z -> Z := fexp prec emax.

(** The values of the datatype that are doubles: a mantissa of 53 bits
    at most, in its normal form, and an exponent in range. *)
Definition is_double (x : float) : bool := valid_binary prec emax x.

(** Number of decimal digits of a positive integer. *)
Definition ndigits10 (n : Z) : Z :=
  Z.of_nat (Decimal.nb_digits (N.to_uint (Z.to_N n))).

(** The double nearest to [(-1)^neg * m * 10^e10], as a correctly rounded
    decimal-to-binary conversion gives it.  A value of 10^311 or more is
    beyond the largest double and one below 10^-330 is under half the
    smallest: these round to infinity and to zero, whatever the
    digits. *)
Definition of_decimal (neg : bool) (m : Z) (e10 : Z) : float :=
  match m with
  | Zpos p =>
      let magnitude := ndigits10 m + e10 in
      if 311 <? magnitude then S754_infinity neg
      else if magnitude <? -330 then S754_zero neg
      else if 0 <=? e10 then
        binary_normalize prec emax (cond_Zopp neg (m * 10 ^ e10)) 0 neg
      else
        let '(q, e, l) :=
          SFdiv_core_binary prec emax m 0 (10 ^ (- e10)) 0 in
        binary_round_aux prec emax neg q e l
  | _ => S754_zero neg
  end.

(** *** [float(s)] for a [str] *)

(** First code points of the runs of ten decimal digits (general category
    Nd, Unicode 14.0); the digit of value [i] is the [i]-th of its run. *)
Definition decimal_zeros : list N :=
  [48; 1632; 1776; 1984; 2406; 2534; 2662; 2790; 2918; 3046; 3174; 3302;
   3430; 3558; 3664; 3792; 3872; 4160; 4240; 6112; 6160; 6470; 6608; 6784;
   6800; 6992; 7088; 7232; 7248; 42528; 43216; 43264; 43472; 43504; 43600;
   44016; 65296; 66720; 68912; 69734; 69872; 69942; 70096; 70384; 70736;
   70864; 71248; 71360; 71472; 71904; 72016; 72784; 73040; 73120; 92768;
   92864; 93008; 120782; 120792; 120802; 120812; 120822; 123200; 123632;
   125264; 130032]%N.

Definition to_decimal (c : char) : option N :=
  match find (fun z => (z <=? c) && (c <? z + 10))%N decimal_zeros with
  | Some z => Some (c - z)%N
  | None => None
  end.

(** The conversion works on ASCII: beyond 127, white space becomes a
    space and a decimal digit its ASCII digit; at any other character the
    text is cut and ends with a question mark. *)
Fixpoint to_ascii (s : str) : str :=
  match s with
  | [] => []
  | c :: s' =>
      if (c <=? 127)%N then c :: to_ascii s'
      else if isspace c then 32%N :: to_ascii s'
      else match to_decimal c with
           | Some d => (48 + d)%N :: to_ascii s'
           | None => [63%N]
           end
  end.

Definition is_digit (c : char) : bool := ((48 <=? c) && (c <=? 57))%N.
Definition underscore : char := 95%N.

(** Underscores may only stand between two digits; they are dropped.
    [prev] is the character before [s]. *)
Fixpoint drop_underscores (prev : option char) (s : str) : option str :=
  match s with
  | [] =>
      match prev with
      | Some p => if char_eqb p underscore then None else Some []
      | None => Some []
      end
  | c :: s' =>
      if char_eqb c underscore then
        match prev with
        | Some p =>
            if is_digit p then drop_underscores (Some c) s' else None
        | None => None
        end
      else
        match prev with
        | Some p =>
            if char_eqb p underscore && negb (is_digit c) then None
            else option_map (cons c) (drop_underscores (Some c) s')
        | None => option_map (cons c) (drop_underscores (Some c) s')
        end
  end.

(** White space of the C locale: 0x09-0x0D and the space. *)
Definition c_isspace (c : char) : bool :=
  ((9 <=? c) && (c <=? 13) || (c =? 32))%N.

Fixpoint c_lstrip (s : str) : str :=
  match s with
  | [] => []
  | c :: s' => if c_isspace c then c_lstrip s' else s
  end.

Definition c_strip (s : str) : str := rev (c_lstrip (rev (c_lstrip s))).

(** The leading digits of [s], as values, and what follows them. *)
Fixpoint span_digits (s : str) : list Z * str :=
  match s with
  | [] => ([], [])
  | c :: s' =>
      if is_digit c then
        let '(ds, rest) := span_digits s' in
        (Z.of_N (c - 48) :: ds, rest)
      else ([], s)
  end.

Definition Z_of_digits (ds : list Z) : Z :=
  fold_left (fun acc d => 10 * acc + d) ds 0.

Definition lower (c : char) : char :=
  if ((65 <=? c) && (c <=? 90))%N then (c + 32)%N else c.

Definition is_word (w : string) (s : str) : bool :=
  str_eqb (map lower s) (lit w).
Arguments is_word w%_string s.

Definition is_e (c : char) : bool := char_eqb (lower c) 101%N.
Definition dot : char := 46%N.
Definition plus : char := 43%N.
Definition minus : char := 45%N.

(** An optional sign: whether it is a minus, and what follows. *)
Definition read_sign (s : str) : bool * str :=
  match s with
  | c :: s' =>
      if char_eqb c minus then (true, s')
      else if char_eqb c plus then (false, s')
      else (false, s)
  | [] => (false, s)
  end.

(** The exponent part, which must reach the end of the text. *)
Definition read_exponent (s : str) : option Z :=
  match s with
  | [] => Some 0
  | c :: s' =>
      if is_e c then
        let '(eneg, s'') := read_sign s' in
        match span_digits s'' with
        | ((_ :: _) as ds, []) => Some (cond_Zopp eneg (Z_of_digits ds))
        | _ => None
        end
      else None
  end.

(** An unsigned decimal number: digits, an optional point, digits (one
    digit at least), an optional exponent. *)
Definition read_number (neg : bool) (s : str) : option float :=
  let '(ip, s1) := span_digits s in
  let '(fp, s2) :=
    match s1 with
    | c :: s1' => if char_eqb c dot then span_digits s1' else ([], s1)
    | [] => ([], s1)
    end in
  match ip ++ fp with
  | [] => None
  | (_ :: _) as ds =>
      match read_exponent s2 with
      | Some e =>
          Some (of_decimal neg (Z_of_digits ds)
                           (e - Z.of_nat (List.length fp)))
      | None => None
      end
  end.

(** [float(s)]: the double, or [None] where Python raises
    [ValueError]. *)
Definition float_of_str (s : str) : option float :=
  let a := to_ascii s in
  match
    (if existsb (char_eqb underscore) a then drop_underscores None a
     else Some a)
  with
  | None => None
  | Some a' =>
      let '(neg, body) := read_sign (c_strip a') in
      if is_word "inf" body || is_word "infinity" body
      then Some (inf neg)
      else if is_word "nan" body then Some nan
      else read_number neg body
  end.

(** *** Printing a double *)

(** The ASCII digits of a natural number. *)
Definition str_of_Z (n : Z) : str :=
  lit (NilZero.string_of_uint (N.to_uint (Z.to_N n))).

Definition zeros (n : Z) : str := repeat 48%N (Z.to_nat n).

(** [num / den] rounded to the nearest integer, ties to even
    ([0 <= num], [0 < den]). *)
Definition round_half_even (num den : Z) : Z :=
  let q := num / den in
  let r := num mod den in
  match 2 * r ?= den with
  | Lt => q
  | Gt => q + 1
  | Eq => if Z.even q then q else q + 1
  end.

(** A positive finite double [m * 2^e] as a fraction. *)
Definition fraction (m : positive) (e : Z) : Z * Z :=
  if 0 <=? e then (Zpos m * 2 ^ e, 1) else (Zpos m, 2 ^ (- e)).

Definition with_sign (neg : bool) (s : str) : str :=
  if neg then minus :: s else s.

(** [f"{x:.2f}"]: the exact value rounded to two decimals, ties to
    even; a negative value that rounds to zero keeps its sign. *)
Definition format_2f (x : float) : str :=
  match x with
  | S754_nan => lit "nan"
  | S754_infinity neg => with_sign neg (lit "inf")
  | S754_zero neg => with_sign neg (lit "0.00")
  | S754_finite neg m e =>
      let '(num, den) := fraction m e in
      let h := round_half_even (100 * num) den in
      let cents := str_of_Z (h mod 100) in
      with_sign neg
        (str_of_Z (h / 100) ++ dot
           :: zeros (2 - Z.of_nat (List.length cents)) ++ cents)
  end.

(** [10^p * num / den] as a fraction, for any sign of [p]. *)
Definition scale10 (p : Z) (nd : Z * Z) : Z * Z :=
  let '(num, den) := nd in
  if 0 <=? p then (num * 10 ^ p, den) else (num, den * 10 ^ (- p)).

(** The position of the decimal point: the least [d] with
    [num / den < 10^d]. *)
Definition decimal_point (nd : Z * Z) : Z :=
  let '(num, den) := nd in
  let d := ndigits10 num - ndigits10 den in
  let '(n', d') := scale10 (- d) nd in
  if n' <? d' then d else d + 1.

(** The shortest decimal that reads back as [x = m * 2^e], and among
    those of that length the nearest to [x], as the pair [(c, p)] of an
    integer of [k] digits and a power of ten: the decimal is [c * 10^p].
    The search starts at [k] digits; seventeen always suffice. *)
Fixpoint shortest_from (k : Z) (fuel : nat) (m : positive) (e : Z)
  : Z * Z :=
  let x := fraction m e in
  let p := decimal_point x - k in
  let '(num, den) := scale10 (- p) x in
  let lo := num / den in
  let hi := lo + 1 in
  let lo_ok := same (of_decimal false lo p) (S754_finite false m e) in
  let hi_ok := same (of_decimal false hi p) (S754_finite false m e) in
  let nearest := round_half_even num den in
  match fuel with
  | O => (nearest, p)
  | S fuel' =>
      if lo_ok && hi_ok then (nearest, p)
      else if lo_ok then (lo, p)
      else if hi_ok then (hi, p)
      else shortest_from (k + 1) fuel' m e
  end.

Definition shortest (m : positive) (e : Z) : Z * Z :=
  shortest_from 1 16 m e.

Fixpoint strip_zeros_rev (s : str) : str :=
  match s with
  | c :: s' => if char_eqb c 48%N then strip_zeros_rev s' else s
  | [] => []
  end.

(** [repr(x)] for a Python float: positional between 1e-4 and 1e16,
    with an exponent of two digits at least outside. *)
Definition repr (x : float) : str :=
  match x with
  | S754_nan => lit "nan"
  | S754_infinity neg => with_sign neg (lit "inf")
  | S754_zero neg => with_sign neg (lit "0.0")
  | S754_finite neg m e =>
      let '(c, p) := shortest m e in
      let all := str_of_Z c in
      let ds := rev (strip_zeros_rev (rev all)) in
      let n := Z.of_nat (List.length ds) in
      let decpt := p + Z.of_nat (List.length all) in
      with_sign neg
        (if (-4 <? decpt) && (decpt <=? 16) then
           if decpt <=? 0 then
             lit "0." ++ zeros (- decpt) ++ ds
           else if n <=? decpt then
             ds ++ zeros (decpt - n) ++ lit ".0"
           else
             firstn (Z.to_nat decpt) ds ++ dot
               :: skipn (Z.to_nat decpt) ds
         else
           let ex := decpt - 1 in
           let exs := str_of_Z (Z.abs ex) in
           firstn 1 ds
             ++ (match skipn 1 ds with
                 | [] => []
                 | rest => dot :: rest
                 end)
             ++ lit "e"
             ++ (if ex <? 0 then minus else plus)
             :: zeros (2 - Z.of_nat (List.length exs)) ++ exs)
  end.

(** [repr] of a list of floats, as [ndarray.tolist()] gives it. *)
Definition repr_list (xs : list float) : str :=
  lit "[" ++ join (lit ", ") (map repr xs) ++ lit "]".

(** *** numpy's reductions over a one-dimensional float64 array *)

Definition zero (neg : bool) : float := S754_zero neg.

(** [r[j] += a[j]] on the lanes of an unrolled block. *)
Fixpoint add_lanes (r a : list float) : list float :=
  match r, a with
  | x :: r', y :: a' => add x y :: add_lanes r' a'
  | _, _ => r
  end.

Fixpoint lanes (blocks : nat) (r a : list float)
  : list float * list float :=
  match blocks with
  | O => (r, a)
  | S b => lanes b (add_lanes r (firstn 8 a)) (skipn 8 a)
  end.

Definition tree8 (r : list float) : float :=
  match r with
  | [r0; r1; r2; r3; r4; r5; r6; r7] =>
      add (add (add r0 r1) (add r2 r3)) (add (add r4 r5) (add r6 r7))
  | _ => fold_left add r (zero true)
  end.

(** A block of 8 to 128 elements: eight running sums over the multiples
    of eight, combined as a tree, then the remaining elements one by
    one. *)
Definition block_sum (a : list float) : float :=
  let n := List.length a in
  let '(r, rest) := lanes (n / 8 - 1) (firstn 8 a) (skipn 8 a) in
  fold_left add rest (tree8 r).

(** Pairwise summation: under 8 elements a plain loop from -0.0, up to
    128 a block, beyond that the two halves (the first a multiple of
    eight) summed on their own. *)
Fixpoint pairwise_sum (fuel : nat) (a : list float) : float :=
  let n := List.length a in
  if (n <? 8)%nat then fold_left add a (zero true)
  else if (n <=? 128)%nat then block_sum a
  else
    match fuel with
    | O => block_sum a
    | S fuel' =>
        let n2 := (n / 2 - (n / 2) mod 8)%nat in
        add (pairwise_sum fuel' (firstn n2 a))
            (pairwise_sum fuel' (skipn n2 a))
    end.

(** The sum [umr_sum(a, axis, dtype, out, keepdims, where=where)] that
    [np.mean] and [np.std] take: the reduction starts from 0.0, to which
    the pairwise sum of the elements is added, so that the sum of
    negative zeros alone is 0.0, as is the sum of no element. *)
Definition np_sum (a : list float) : float :=
  add (zero false) (pairwise_sum (List.length a) a).

Definition count (a : list float) : Z := Z.of_nat (List.length a).

(** [np.mean(a)] *)
Definition np_mean (a : list float) : float :=
  div (np_sum a) (of_Z (count a)).

(** [np.var(a, ddof=ddof)]: the squared deviations from the mean are
    summed and divided by [max(n - ddof, 0)]. *)
Definition np_var (a : list float) (ddof : Z) : float :=
  let arrmean := div (np_sum a) (of_Z (count a)) in
  let x := map (fun v => sub v arrmean) a in
  let x := map (fun v => mul v v) x in
  let ret := np_sum x in
  let rcount := Z.max (count a - ddof) 0 in
  div ret (of_Z rcount).

(** [np.std(a, ddof=ddof)] *)
Definition np_std (a : list float) (ddof : Z) : float :=
  sqrt (np_var a ddof).

(** [np.minimum] and [np.maximum] in a reduction, [x] the running value
    and [y] the next element: the running value stays when it is strictly
    before the element or is a NaN, and the element replaces it otherwise.
    A NaN, once met, stays.  Of two equal values the later one is kept,
    which shows only between 0.0 and -0.0: it is what the reduction of two
    samples gives; over more samples numpy's vectorised loop may keep
    either zero, and no theorem below rests on which. *)
Definition minimum (x y : float) : float :=
  if ltb x y || isnan x then x else y.
Definition maximum (x y : float) : float :=
  if ltb y x || isnan x then x else y.

(** [np.min(a)] and [np.max(a)]; numpy raises on an empty array, which
    the script never passes. *)
Definition np_min (a : list float) : float :=
  match a with
  | [] => nan
  | x :: rest => fold_left minimum rest x
  end.
Definition np_max (a : list float) : float :=
  match a with
  | [] => nan
  | x :: rest => fold_left maximum rest x
  end.

End Binary64.

(** ** The script *)

Module Script.

(** *** The numeric runtime

    What the script asks of Python's [float] and of numpy. *)
Record Runtime : Type := {
  num : Type;
  (** [float(s)], [None] standing for [ValueError] *)
  float_ : str -> option num;
  np_mean : list num -> num;
  (** [np.std(a, ddof=ddof)] *)
  np_std : list num -> Z -> num;
  np_min : list num -> num;
  np_max : list num -> num;
  (** [f"{x:.2f}"] *)
  format_2f : num -> str;
  (** [f"{values.tolist()}"] *)
  repr_list : list num -> str }.

Definition binary64 : Runtime := {|
  num := Binary64.float;
  float_ := Binary64.float_of_str;
  np_mean := Binary64.np_mean;
  np_std := Binary64.np_std;
  np_min := Binary64.np_min;
  np_max := Binary64.np_max;
  format_2f := Binary64.format_2f;
  repr_list := Binary64.repr_list |}.

(** *** Effects: files, standard output, exceptions *)

Record world : Type := {
  (** the decoded text of each path that can be opened and read, and
      nothing for a path that cannot be opened.  A file whose bytes do not
      decode, on which the iteration raises [UnicodeDecodeError] (not
      handled by the script either), is not among the files described
      here. *)
  files : str -> option str;
  (** the lines printed so far on standard output (the warnings of numpy
      go to standard error) *)
  stdout : list str;
  (** the paths [open] was called on, in order *)
  opened : list str }.

Inductive exn : Type :=
| SystemExit (code : Z)
| OSError (path : str).

Inductive result (A : Type) : Type :=
| Return (a : A)
| Raise (e : exn).
Arguments Raise {A} e.

Definition M (A : Type) : Type := world -> result A * world.

Definition ret {A} (a : A) : M A := fun w => (Return a, w).

Definition bind {A B} (m : M A) (k : A -> M B) : M B :=
  fun w =>
    match m w with
    | (Return a, w') => k a w'
    | (Raise e, w') => (Raise e, w')
    end.

Notation "x <- m ;; k" := (bind m (fun x => k))
  (at level 61, m at next level, right associativity).
Notation "m ;;; k" := (bind m (fun _ => k))
  (at level 61, right associativity).

(** The world after some lines were printed, and after a path was
    opened. *)
Definition printed (lines : list str) (w : world) : world :=
  {| files := files w;
     stdout := stdout w ++ lines;
     opened := opened w |}.

Definition accessed (path : str) (w : world) : world :=
  {| files := files w;
     stdout := stdout w;
     opened := opened w ++ [path] |}.

(** [print(line)] *)
Definition print (line : str) : M unit :=
  fun w => (Return tt, printed [line] w).

(** [sys.exit(code)] *)
Definition sys_exit {A} (code : Z) : M A :=
  fun w => (Raise (SystemExit code), w).

(** [open(path, "r")] followed by reading, for the files a [world]
    describes: the text of the file, or [OSError] when the path cannot be
    opened. *)
Definition open_r (path : str) : M str :=
  fun w =>
    match files w path with
    | Some text => (Return text, accessed path w)
    | None => (Raise (OSError path), accessed path w)
    end.

(** The exit status of the process: 0 when [main] returns, the code of
    [sys.exit], 1 for an exception nobody caught. *)
Definition exit_status (r : result unit) : Z :=
  match r with
  | Return _ => 0
  | Raise (SystemExit code) => code
  | Raise (OSError _) => 1
  end.

Section Program.

Variable R : Runtime.

(** The body of [for line in f], with the list [values] threaded
    through; each [continue] goes on with [values] unchanged. *)
Fixpoint for_line_in (f : list str) (values : list (num R))
  : list (num R) :=
  match f with
  | [] => values
  | line :: f' =>
      let line := strip line in
      if match line with [] => true | _ => false end
         || startswith line (lit "Iteration")
      then for_line_in f' values
      else if startswith line (lit "Average Batch")
              || startswith line (lit "Final Average")
      then for_line_in f' values
      else
        let parts := split comma line in
        if (List.length parts <? 4)%nat then for_line_in f' values
        else
          match float_ R (nth 3 parts []) with
          | Some batch_time => for_line_in f' (values ++ [batch_time])
          | None => for_line_in f' values
          end
  end.

Definition read_batch_readiness_times (filepath : str)
  : M (list (num R)) :=
  text <- open_r filepath ;;
  ret (for_line_in (file_lines text) []).

Definition main (argv : list str) : M unit :=
  if negb (List.length argv =? 2)%nat then
    print (lit "Usage: python3 compute_std.py <metrics_file.txt>") ;;;
    sys_exit 1
  else
    let filepath := nth 1 argv [] in
    values <- read_batch_readiness_times filepath ;;
    if (List.length values =? 0)%nat then
      print (lit "No valid data found in file.") ;;;
      sys_exit 1
    else
      let mean := np_mean R values in
      let std := np_std R values 1 in
      let vmin := np_min R values in
      let vmax := np_max R values in
      print (lit "----- Results -----") ;;;
      print (lit "Values: " ++ repr_list R values) ;;;
      print (lit "Mean: " ++ format_2f R mean ++ lit " ms") ;;;
      print (lit "Std Dev: " ++ format_2f R std ++ lit " ms") ;;;
      print (lit "Min: " ++ format_2f R vmin ++ lit " ms") ;;;
      print (lit "Max: " ++ format_2f R vmax ++ lit " ms").

End Program.

End Script.
Import Script.

(** ** The sample set as the specification words it

    A line is skipped when, stripped, it is empty or starts with one of
    the marker prefixes; a line that is not skipped gives a sample when
    it has a field of index 3 and that field parses. *)

Module Spec.

Section Samples.

Variable R : Runtime.

Definition markers : list str :=
  [lit "Iteration"; lit "Average Batch"; lit "Final Average"].

Definition is_skipped (line : str) : bool :=
  match strip line with
  | [] => true
  | stripped => existsb (startswith stripped) markers
  end.

Definition fields (line : str) : list str := split comma (strip line).

Definition sample_of_line (line : str) : option (num R) :=
  if is_skipped line then None
  else
    match nth_error (fields line) 3 with
    | Some field => float_ R field
    | None => None
    end.

Definition to_list {A} (o : option A) : list A :=
  match o with Some a => [a] | None => [] end.

Definition spec_samples (lines : list str) : list (num R) :=
  flat_map (fun line => to_list (sample_of_line line)) lines.

(** The lines [main] prints for a non-empty sample set. *)
Definition report (values : list (num R)) : list str :=
  [ lit "----- Results -----";
    lit "Values: " ++ repr_list R values;
    lit "Mean: " ++ format_2f R (np_mean R values) ++ lit " ms";
    lit "Std Dev: " ++ format_2f R (np_std R values 1) ++ lit " ms";
    lit "Min: " ++ format_2f R (np_min R values) ++ lit " ms";
    lit "Max: " ++ format_2f R (np_max R values) ++ lit " ms" ].

End Samples.

(** *** The statistics, exactly

    What the specification asks of the four numbers, in exact arithmetic,
    to set the double-precision results against. *)






End Spec.
Import Spec.

(** ** The order of the doubles

    Proof devices: the place of a double in the order of the reals as a
    triple compared lexicographically, and the one reduction behind the
    minimum and the maximum. *)

Module FloatOrder.

Import Binary64.
Local Open Scope Z_scope.

Definition rank (x : float) : Z * Z * Z :=
  match x with
  | S754_infinity true => (-2, 0, 0)
  | S754_finite true m e => (-1, - e, - Z.pos m)
  | S754_zero _ | S754_nan => (0, 0, 0)
  | S754_finite false m e => (1, e, Z.pos m)
  | S754_infinity false => (2, 0, 0)
  end.

Definition lex_lt (a b : Z * Z * Z) : Prop :=
  let '(a1, a2, a3) := a in
  let '(b1, b2, b3) := b in
  a1 < b1 \/ (a1 = b1 /\ (a2 < b2 \/ (a2 = b2 /\ a3 < b3))).


(** One reduction for both ends, [before x y] reading "[x] comes strictly
    before [y]": [minimum] is [pick ltb] and [maximum] is
    [pick (fun x y => ltb y x)]. *)
Definition pick (before : float -> float -> bool) (x y : float) : float :=
  if before x y || isnan x then x else y.

End FloatOrder.
Import FloatOrder.

(** ** Inputs for the examples *)

Module Inputs.

(** A text file from its lines, each ended by a line feed. *)
Definition unlines (ls : list string) : str :=
  flat_map (fun l => lit l ++ [LF]) ls.

Local Open Scope string_scope.

(** A file system with one readable file. *)
Definition disk (path text : str) : str -> option str :=
  fun p => if str_eqb p path then Some text else None.

(** A process start: nothing printed, nothing opened. *)
Definition fresh (fs : str -> option str) : world :=
  {| files := fs; stdout := []; opened := [] |}.

Definition prog : str := lit "compute_std.py".
Definition metrics : str := lit "metrics.txt".

(** The two rows of the specification's scenario. *)
Definition two_rows : str := unlines ["1,100,10,50"; "2,200,20,70"].

(** A log with a header, a footer, rows that are too short or not
    numeric, and a row with six fields. *)
Definition mixed_log : str :=
  unlines [ "Iteration 1"; "1,100,10,50"; ""; "3,300"; "4,400,40,abc";
            "2,200,20,70,7,8"; "Average Batch Time: 60";
            "Final Average: 60" ].

Definition w_mixed : world := fresh (disk metrics mixed_log).

Definition only_markers : str :=
  unlines ["Iteration 1"; "Average Batch Time: 50"].

Definition single_row : str := unlines ["1,10,1,5"].
Definition negative_zero_row : str := unlines ["1,2,3,-0.0"].

(** Fourth fields that are not plain decimals. *)
Definition unusual_rows : str :=
  unlines ["1,2,3,inf"; "1,2,3,nan"; "1,2,3,1e3"; "1,2,3, 2.5 ,x"].

Definition infinite_row : str := unlines ["1,1,1,inf"; "2,1,1,4"].
Definition nan_row : str := unlines ["1,1,1,nan"; "2,1,1,4"].

(** The doubles 2.5 and 4. *)
Definition two_and_a_half : Binary64.float :=
  Binary64.div (Binary64.of_Z 5) (Binary64.of_Z 2).
Definition four : Binary64.float := Binary64.of_Z 4.


End Inputs.
Import Inputs.

(** ** Notions for the further properties *)

Module Notions.

Import Binary64.

(** Number of occurrences of a character. *)
Fixpoint count_char (c : char) (s : str) : nat :=
  match s with
  | [] => 0
  | d :: s' => (if char_eqb d c then 1 else 0) + count_char c s'
  end.

(** The text with every line feed written as [nl]. *)
Fixpoint with_newline (nl : str) (t : str) : str :=
  match t with
  | [] => []
  | c :: t' =>
      if char_eqb c LF then nl ++ with_newline nl t'
      else c :: with_newline nl t'
  end.

(** Nothing but white space, as [str.isspace] sees it (the empty text
    included). *)
Definition blank (s : str) : bool := forallb isspace s.
Definition all_space (s : str) : Prop :=
  Forall (fun c => isspace c = true) s.

(** No carriage return. *)
Definition CR_free (t : str) : bool :=
  forallb (fun c => negb (char_eqb c CR)) t.
Definition no_CR (t : str) : Prop :=
  Forall (fun c => char_eqb c CR = false) t.

(** Not negative: a NaN, +0.0, a positive number or +infinity. *)
Definition nonneg (x : float) : bool :=
  match x with
  | S754_zero s | S754_infinity s | S754_finite s _ _ => negb s
  | S754_nan => true
  end.

(** Some value is a NaN. *)
Definition has_nan (a : list float) : bool := existsb isnan a.

(** A blank of the C locale or one of the controls 0x1C-0x1F. *)
Definition blankish (c : char) : Prop :=
  c_isspace c = true \/ (28 <= c <= 31)%N.

(** The characters a text that [float] accepts is made of, in ASCII:
    digits, blanks, signs, the point, the underscore and the letters of
    [e], [inf], [infinity] and [nan] in either case. *)
Definition float_char (c : char) : bool :=
  is_digit c || c_isspace c
  || existsb (char_eqb (lower c)) (lit "+-._einfaty").

(** Some ASCII character of the text is none of those. *)
Definition has_stray (s : str) : bool :=
  existsb (fun c => (c <=? 127)%N && negb (float_char c)) s.

(** *** Inputs *)

Definition indent : str := [32; 9]%N.
Definition short_row : str := lit "3,300".
Definition blank_field_row : str := lit "1,2,3, ,5".
Definition unit_row : str := lit "1,2,3,50ms".

End Notions.
Import Notions.

(** * Properties of [read_batch_readiness_times] *)

Section Parsing.

Variable R : Runtime.

(** ** The loop *)

(** The loop only ever appends to [values]. *)
Lemma for_line_in_values (f : list str) (values : list (num R)) :
  for_line_in R f values = values ++ for_line_in R f [].
Proof.
  revert values.
  induction f as [|line f IH]; intros values; simpl.
  - now rewrite app_nil_r.
  - repeat match goal with
           | |- context [if ?b then _ else _] => destruct b
           | |- context [match float_ R ?x with _ => _ end] =>
               destruct (float_ R x)
           end;
      try apply IH.
    rewrite IH, (IH [_]), app_assoc. reflexivity.
Qed.

Lemma nth_error_nth_3 (parts : list str) :
  nth_error parts 3
  = if (List.length parts <? 4)%nat then None else Some (nth 3 parts []).
Proof.
  destruct parts as [|a [|b [|c [|d rest]]]]; reflexivity.
Qed.

(** One turn of the loop adds what the specification says of the
    line. *)
Lemma for_line_in_cons (line : str) (f : list str) :
  for_line_in R (line :: f) []
  = to_list (sample_of_line R line) ++ for_line_in R f [].
Proof.
  unfold sample_of_line, is_skipped, fields, markers.
  rewrite nth_error_nth_3.
  cbn [for_line_in existsb].
  destruct (strip line) as [|c stripped] eqn:Hs; [reflexivity|].
  cbn [orb].
  destruct (startswith (c :: stripped) (lit "Iteration"));
    [reflexivity|].
  destruct (startswith (c :: stripped) (lit "Average Batch"));
    [reflexivity|].
  destruct (startswith (c :: stripped) (lit "Final Average"));
    [reflexivity|].
  cbn [orb negb].
  destruct (List.length (split comma (c :: stripped)) <? 4)%nat;
    [reflexivity|].
  destruct (float_ R (nth 3 (split comma (c :: stripped)) []));
    [|reflexivity].
  cbn [to_list app]. apply (for_line_in_values f [_]).
Qed.

Lemma for_line_in_app (f1 f2 : list str) :
  for_line_in R (f1 ++ f2) []
  = for_line_in R f1 [] ++ for_line_in R f2 [].
Proof.
  induction f1 as [|line f1 IH]; [reflexivity|].
  rewrite <- app_comm_cons, !for_line_in_cons, IH, app_assoc.
  reflexivity.
Qed.

Lemma for_line_in_spec (f : list str) :
  for_line_in R f [] = spec_samples R f.
Proof.
  induction f as [|line f IH]; [reflexivity|].
  rewrite for_line_in_cons, IH. reflexivity.
Qed.

(** Every sample is a value [float] returned. *)
Lemma for_line_in_Forall (P : num R -> Prop) :
  (forall s x, float_ R s = Some x -> P x) ->
  forall f values, Forall P values -> Forall P (for_line_in R f values).
Proof.
  intros HP f.
  induction f as [|line f IH]; intros values Hv; cbn [for_line_in];
    [exact Hv|].
  repeat match goal with
         | |- context [if ?b then _ else _] => destruct b
         end; try now apply IH.
  destruct (float_ R _) as [x|] eqn:E; apply IH; [|exact Hv].
  apply Forall_app. split; [exact Hv|].
  constructor; [|constructor]. exact (HP _ _ E).
Qed.

(** What a call does on a readable file. *)
Lemma read_batch_readiness_times_eq (path : str) (w : world) (text : str) :
  files w path = Some text ->
  read_batch_readiness_times R path w
  = (Return (for_line_in R (file_lines text) []), accessed path w).
Proof.
  intros H.
  unfold read_batch_readiness_times, bind, open_r, ret.
  rewrite H. reflexivity.
Qed.

(** C2.  On every readable file the call returns exactly the samples
    the specification describes: for each line of the file, in order,
    the value of field 3 when the line is not skipped, has four fields
    at least and that field parses, and nothing otherwise.  A line that
    gives nothing raises nothing and prints nothing, and the lines after
    it are still read. *)
Theorem read_batch_readiness_times_spec
        (path : str) (w : world) (text : str) :
  files w path = Some text ->
  read_batch_readiness_times R path w
  = (Return (spec_samples R (file_lines text)), accessed path w).
Proof.
  intros H.
  rewrite (read_batch_readiness_times_eq path w H).
  now rewrite for_line_in_spec.
Qed.

(** C3.  A line that, once stripped, is empty or begins with
    [Iteration], [Average Batch] or [Final Average] contributes no
    sample: the call returns the samples of the lines before it followed
    by those of the lines after it, whatever the line holds after the
    prefix. *)
Theorem marker_line_contributes_nothing
        (path : str) (w : world) (text : str)
        (before : list str) (line : str) (after : list str) :
  files w path = Some text ->
  file_lines text = before ++ line :: after ->
  strip line = []
  \/ startswith (strip line) (lit "Iteration") = true
  \/ startswith (strip line) (lit "Average Batch") = true
  \/ startswith (strip line) (lit "Final Average") = true ->
  fst (read_batch_readiness_times R path w)
  = Return (for_line_in R before [] ++ for_line_in R after []).
Proof.
  intros Hfile Hlines Hline.
  rewrite (read_batch_readiness_times_eq path w Hfile), Hlines.
  cbn [fst]. f_equal.
  rewrite for_line_in_app. f_equal.
  cbn [for_line_in].
  destruct Hline as [H | [H | [H | H]]]; rewrite H.
  - reflexivity.
  - now rewrite orb_true_r.
  - cbn [orb]. now destruct (_ || _).
  - rewrite orb_true_r. now destruct (_ || _).
Qed.

(** C7.  The samples depend on the text of the file alone: two calls on
    files of the same text return the same sequence, whatever else the
    two worlds hold; and a second call on the same path, right after the
    first, returns what the first returned. *)
Theorem read_batch_readiness_times_deterministic
        (path1 path2 : str) (w1 w2 : world) (text : str) :
  files w1 path1 = Some text ->
  files w2 path2 = Some text ->
  fst (read_batch_readiness_times R path1 w1)
  = fst (read_batch_readiness_times R path2 w2)
  /\ exists values,
       fst (bind (read_batch_readiness_times R path1)
                 (fun first =>
                    bind (read_batch_readiness_times R path1)
                         (fun second => ret (first, second))) w1)
       = Return (values, values).
Proof.
  intros H1 H2. split.
  - now rewrite (read_batch_readiness_times_eq path1 w1 H1),
      (read_batch_readiness_times_eq path2 w2 H2).
  - exists (for_line_in R (file_lines text) []).
    unfold bind at 1.
    rewrite (read_batch_readiness_times_eq path1 w1 H1).
    unfold bind.
    rewrite (read_batch_readiness_times_eq path1 (accessed path1 w1)
               (text := text)) by exact H1.
    reflexivity.
Qed.

(** C9.  A line that is not skipped and has more than four fields
    contributes what its field of index 3 gives, one sample when that
    field parses, and the fields after the fourth play no part. *)
Theorem fields_after_the_fourth_ignored
        (path : str) (w : world) (text : str)
        (before : list str) (line : str) (after : list str)
        (f0 f1 f2 f3 f4 : str) (more : list str) :
  files w path = Some text ->
  file_lines text = before ++ line :: after ->
  is_skipped line = false ->
  split comma (strip line) = f0 :: f1 :: f2 :: f3 :: f4 :: more ->
  fst (read_batch_readiness_times R path w)
  = Return (for_line_in R before []
              ++ to_list (float_ R f3)
              ++ for_line_in R after []).
Proof.
  intros Hfile Hlines Hskip Hsplit.
  rewrite (read_batch_readiness_times_eq path w Hfile), Hlines.
  cbn [fst]. f_equal.
  rewrite for_line_in_app, for_line_in_cons. do 2 f_equal.
  unfold sample_of_line, fields.
  now rewrite Hskip, Hsplit.
Qed.

End Parsing.

(** * Properties of [main] *)

Section Main.

Variable R : Runtime.

Lemma printed_printed (l1 l2 : list str) (w : world) :
  printed l2 (printed l1 w) = printed (l1 ++ l2) w.
Proof.
  unfold printed; cbn. now rewrite app_assoc.
Qed.

(** The usage branch. *)
Lemma main_usage (argv : list str) (w : world) :
  List.length argv <> 2%nat ->
  main R argv w
  = (Raise (SystemExit 1),
     printed [lit "Usage: python3 compute_std.py <metrics_file.txt>"] w).
Proof.
  intros H. unfold main.
  destruct (Nat.eqb_spec (List.length argv) 2) as [E|_];
    [contradiction|].
  reflexivity.
Qed.

(** One argument, a file that cannot be opened. *)
Lemma main_unreadable (argv0 path : str) (w : world) :
  files w path = None ->
  main R [argv0; path] w = (Raise (OSError path), accessed path w).
Proof.
  intros H.
  unfold main, read_batch_readiness_times, bind, open_r; cbn.
  now rewrite H.
Qed.

(** One argument, a readable file without a sample. *)
Lemma main_no_data (argv0 path : str) (w : world) (text : str) :
  files w path = Some text ->
  for_line_in R (file_lines text) [] = [] ->
  main R [argv0; path] w
  = (Raise (SystemExit 1),
     printed [lit "No valid data found in file."] (accessed path w)).
Proof.
  intros Hfile Hvalues.
  unfold main; cbn [List.length Nat.eqb negb nth].
  unfold bind at 1.
  rewrite (read_batch_readiness_times_eq R path w Hfile), Hvalues.
  reflexivity.
Qed.

(** One argument, a readable file with samples. *)
Lemma main_report (argv0 path : str) (w : world) (text : str) :
  files w path = Some text ->
  for_line_in R (file_lines text) [] <> [] ->
  main R [argv0; path] w
  = (Return tt,
     printed (report R (for_line_in R (file_lines text) []))
             (accessed path w)).
Proof.
  intros Hfile Hvalues.
  unfold main; cbn [List.length Nat.eqb negb nth].
  unfold bind at 1.
  rewrite (read_batch_readiness_times_eq R path w Hfile).
  destruct (for_line_in R (file_lines text) []) as [|v values];
    [contradiction|].
  cbn [List.length Nat.eqb].
  unfold bind, print.
  rewrite !printed_printed. reflexivity.
Qed.

(** C4.  With exactly one argument that names a readable file, the exit
    status is 0 exactly when a sample was parsed, and the statistics are
    then printed; without a sample the program prints
    [No valid data found in file.] and leaves through [sys.exit(1)],
    where a file that cannot be opened ends in the exception of [open]
    and prints nothing. *)
Theorem exit_status_one_file
        (argv0 path : str) (w : world) (text : str) :
  files w path = Some text ->
  let values := for_line_in R (file_lines text) [] in
  let run := main R [argv0; path] w in
  (exit_status (fst run) = 0%Z <-> values <> [])
  /\ (values <> [] ->
      run = (Return tt, printed (report R values) (accessed path w)))
  /\ (values = [] ->
      run = (Raise (SystemExit 1),
             printed [lit "No valid data found in file."]
                     (accessed path w)))
  /\ (forall w',
        files w' path = None ->
        main R [argv0; path] w'
        = (Raise (OSError path), accessed path w')).
Proof.
  intros Hfile values run.
  assert (Hsome : values <> [] ->
                  run = (Return tt,
                         printed (report R values) (accessed path w)))
    by (intros Hv; apply (main_report argv0 path w Hfile Hv)).
  assert (Hnone : values = [] ->
                  run = (Raise (SystemExit 1),
                         printed [lit "No valid data found in file."]
                                 (accessed path w)))
    by (intros Hv; apply (main_no_data argv0 path w Hfile Hv)).
  repeat split; auto.
  - intros Hexit Hv. rewrite (Hnone Hv) in Hexit. discriminate.
  - intros Hv. now rewrite (Hsome Hv).
  - intros w' Hw'. now apply main_unreadable.
Qed.

(** C5.  When the argument list does not hold exactly one argument
    after the program name, the program prints the usage line and leaves
    through [sys.exit(1)]; no path was opened on the way. *)
Theorem usage_on_wrong_arity (argv : list str) (w : world) :
  List.length argv <> 2%nat ->
  let run := main R argv w in
  run = (Raise (SystemExit 1),
         printed [lit "Usage: python3 compute_std.py <metrics_file.txt>"]
                 w)
  /\ exit_status (fst run) = 1%Z
  /\ opened (snd run) = opened w.
Proof.
  intros H run. subst run.
  rewrite (main_usage argv w H). repeat split.
Qed.

End Main.

(** * Properties in double precision *)

Section Doubles.

Import Binary64.
Local Open Scope Z_scope.

(** ** Arithmetic facts *)

Lemma add_zero_neg (x : float) : add (zero true) x = x.
Proof. destruct x as [[|]| | |]; reflexivity. Qed.

(** The sum of one element is [0.0 + x]: the element, but for -0.0, whose
    sum is 0.0. *)
Lemma np_sum_single (x : float) : np_sum [x] = add (zero false) x.
Proof.
  change (np_sum [x]) with (add (zero false) (add (zero true) x)).
  now rewrite add_zero_neg.
Qed.

Lemma add_zero_pos (x : float) :
  add (zero false) x = match x with S754_zero _ => zero false | _ => x end.
Proof. destruct x as [[|]| | |]; reflexivity. Qed.

Lemma add_zero_pos_double (x : float) :
  is_double x = true -> is_double (add (zero false) x) = true.
Proof. rewrite add_zero_pos. now destruct x. Qed.

(** [x - x] is +0.0, or NaN when [x] is not finite. *)
Lemma sub_diag (x : float) : sub x x = zero false \/ sub x x = nan.
Proof.
  destruct x as [[|]|[|]| |s m e]; cbn; auto.
  left. unfold sub, SFsub. now rewrite Z.sub_diag.
Qed.

Lemma div_eucl_mul (a b : Z) : 0 < b -> Z.div_eucl (a * b) b = (a, 0).
Proof.
  intros Hb.
  pose proof (Z.div_mul a b ltac:(lia)) as Hq.
  pose proof (Z.mod_mul a b ltac:(lia)) as Hr.
  unfold Z.div, Z.modulo in Hq, Hr.
  destruct (Z.div_eucl (a * b) b) as [q r]. now subst.
Qed.

(** Rounding a mantissa that is already in normal form changes
    nothing. *)
Lemma round_exact (s : bool) (m : positive) (e : Z) :
  fexp prec emax (Z.pos (digits2_pos m) + e) = e ->
  e <= emax - prec ->
  binary_round_aux prec emax s (Z.pos m) e loc_Exact = S754_finite s m e.
Proof.
  intros Hc Hb.
  unfold binary_round_aux, shr_fexp.
  cbn [Zdigits2 shr_record_of_loc].
  rewrite Hc, Z.sub_diag.
  cbn [shr shr_m loc_of_shr_record round_nearest_even Zdigits2
         shr_record_of_loc].
  rewrite Hc, Z.sub_diag. cbn [shr shr_m].
  apply Z.leb_le in Hb. now rewrite Hb.
Qed.

(** The same with one more bit, a zero, that the rounding shifts
    out. *)
Lemma round_exact_double (s : bool) (m : positive) (e : Z) :
  fexp prec emax (Z.pos (digits2_pos m) + e) = e ->
  e <= emax - prec ->
  binary_round_aux prec emax s (Z.pos m~0) (e - 1) loc_Exact
  = S754_finite s m e.
Proof.
  intros Hc Hb.
  unfold binary_round_aux, shr_fexp.
  cbn [Zdigits2 shr_record_of_loc digits2_pos].
  replace (Z.pos (Pos.succ (digits2_pos m)) + (e - 1))
    with (Z.pos (digits2_pos m) + e) by lia.
  rewrite Hc.
  replace (e - (e - 1)) with 1 by lia.
  cbn [shr iter_pos shr_1 orb shr_m loc_of_shr_record round_nearest_even
         Zdigits2 shr_record_of_loc].
  replace (e - 1 + 1) with e by lia.
  rewrite Hc, Z.sub_diag. cbn [shr shr_m].
  apply Z.leb_le in Hb. now rewrite Hb.
Qed.

(** ** Every rounded value is a double

    [binary_round_aux] shifts the mantissa right until its exponent is the
    one of its magnitude, rounds, and shifts once more when the rounding
    carried into a new bit; when the mantissa it is given has bits enough,
    what comes out is in normal form. *)

Lemma fexp64_mono (a b : Z) : a <= b -> fexp64 a <= fexp64 b.
Proof. unfold fexp64, fexp, emin, prec, emax. lia. Qed.

Lemma digits2_pos_spec (m : positive) :
  2 ^ (Z.pos (digits2_pos m) - 1) <= Z.pos m < 2 ^ Z.pos (digits2_pos m).
Proof.
  induction m as [m IH | m IH |]; cbn [digits2_pos].
  - rewrite Pos2Z.inj_succ.
    replace (Z.succ (Z.pos (digits2_pos m)) - 1)
      with (Z.succ (Z.pos (digits2_pos m) - 1)) by lia.
    rewrite !Z.pow_succ_r by lia. lia.
  - rewrite Pos2Z.inj_succ.
    replace (Z.succ (Z.pos (digits2_pos m)) - 1)
      with (Z.succ (Z.pos (digits2_pos m) - 1)) by lia.
    rewrite !Z.pow_succ_r by lia. lia.
  - cbn. lia.
Qed.

Lemma digits_nonneg (m : Z) : 0 <= Zdigits2 m.
Proof. destruct m; cbn; lia. Qed.

Lemma digits_div2 (m : Z) :
  0 <= m -> Zdigits2 (Z.div2 m) = Z.max (Zdigits2 m - 1) 0.
Proof.
  destruct m as [|[p|p|]|]; intros H;
    cbn [Z.div2 Zdigits2 digits2_pos Pos.div2];
    rewrite ?Pos2Z.inj_succ; lia.
Qed.

Lemma shr_1_m (mrs : shr_record) :
  0 <= shr_m mrs -> shr_m (shr_1 mrs) = Z.div2 (shr_m mrs).
Proof.
  destruct mrs as [m r s]. cbn [shr_m].
  destruct m as [|[p|p|]|]; intros H; try reflexivity. lia.
Qed.

Lemma div2_nonneg (m : Z) : 0 <= m -> 0 <= Z.div2 m.
Proof. destruct m as [|[p|p|]|]; cbn; lia. Qed.

(** after [p] halvings *)
Lemma iter_shr_1 (p : positive) (mrs : shr_record) :
  0 <= shr_m mrs ->
  0 <= shr_m (iter_pos shr_1 p mrs)
  /\ Zdigits2 (shr_m (iter_pos shr_1 p mrs))
     = Z.max (Zdigits2 (shr_m mrs) - Z.pos p) 0.
Proof.
  revert mrs.
  assert (Hstep : forall mrs, 0 <= shr_m mrs ->
            0 <= shr_m (shr_1 mrs)
            /\ Zdigits2 (shr_m (shr_1 mrs))
               = Z.max (Zdigits2 (shr_m mrs) - 1) 0).
  { intros mrs H. rewrite (shr_1_m mrs H). split.
    - now apply div2_nonneg.
    - now apply digits_div2. }
  induction p as [p IH | p IH |]; intros mrs H; cbn [iter_pos].
  - destruct (Hstep mrs H) as [H1 E1].
    destruct (IH _ H1) as [H2 E2].
    destruct (IH _ H2) as [H3 E3].
    split; [exact H3|]. rewrite E3, E2, E1. lia.
  - destruct (IH _ H) as [H2 E2].
    destruct (IH _ H2) as [H3 E3].
    split; [exact H3|]. rewrite E3, E2. lia.
  - apply Hstep, H.
Qed.

(** A mantissa with digits enough comes out of [shr_fexp] in normal form. *)
Lemma shr_fexp_normal (m e : Z) (l : location) :
  0 <= m -> e <= fexp64 (Zdigits2 m + e) ->
  0 <= shr_m (fst (shr_fexp prec emax m e l))
  /\ fexp64 (Zdigits2 (shr_m (fst (shr_fexp prec emax m e l)))
         + snd (shr_fexp prec emax m e l))
     = snd (shr_fexp prec emax m e l).
Proof.
  intros Hm He. unfold shr_fexp.
  fold fexp64.
  assert (Hrec : shr_m (shr_record_of_loc m l) = m)
    by (destruct l as [|[| |]]; reflexivity).
  destruct (fexp64 (Zdigits2 m + e) - e) as [|p|p] eqn:En; cbn [shr fst snd].
  - rewrite Hrec. split; [exact Hm|]. lia.
  - destruct (iter_shr_1 p (shr_record_of_loc m l)) as [H1 E1];
      [now rewrite Hrec|].
    rewrite Hrec in E1.
    split; [exact H1|]. rewrite E1.
    unfold fexp64, fexp, emin, prec, emax in *. lia.
  - lia.
Qed.

Lemma digits_pos_spec (m : Z) :
  0 < m -> 2 ^ (Zdigits2 m - 1) <= m < 2 ^ Zdigits2 m.
Proof.
  destruct m as [|p|p]; intros H; try lia.
  apply digits2_pos_spec.
Qed.

Lemma digits_lower (m k : Z) : 0 <= k -> 2 ^ k <= m -> k + 1 <= Zdigits2 m.
Proof.
  intros Hk Hm.
  assert (0 < m) by (pose proof (Z.pow_pos_nonneg 2 k); lia).
  destruct (digits_pos_spec H) as [_ Hu].
  assert (2 ^ k < 2 ^ Zdigits2 m) by lia.
  apply Z.pow_lt_mono_r_iff in H0; try lia. apply digits_nonneg.
Qed.

Lemma digits_mono (a b : Z) : 0 <= a <= b -> Zdigits2 a <= Zdigits2 b.
Proof.
  intros [Ha Hab].
  destruct (Z.eq_dec a 0) as [->|Hn]; [apply digits_nonneg|].
  assert (Hpos : 0 < a) by lia.
  destruct (digits_pos_spec Hpos) as [Hl _].
  assert (0 < Zdigits2 a) by (destruct a; cbn; lia).
  pose proof (@digits_lower b (Zdigits2 a - 1) ltac:(lia) ltac:(lia)). lia.
Qed.

Lemma round_nearest_even_bounds (m : Z) (l : location) :
  m <= round_nearest_even m l <= m + 1.
Proof.
  destruct l as [|[| |]]; cbn; try lia.
  destruct (Z.even m); lia.
Qed.

Lemma binary_round_aux_double (s : bool) (m e : Z) (l : location) :
  0 <= m -> e <= fexp64 (Zdigits2 m + e) ->
  is_double (binary_round_aux prec emax s m e l) = true.
Proof.
  intros Hm He. unfold binary_round_aux.
  pose proof (shr_fexp_normal l Hm He) as H1.
  destruct (shr_fexp prec emax m e l) as [mrs1 e1].
  cbn [fst snd] in H1. destruct H1 as [Hm1 He1].
  set (m2 := round_nearest_even (shr_m mrs1) (loc_of_shr_record mrs1)).
  pose proof (round_nearest_even_bounds (shr_m mrs1)
                (loc_of_shr_record mrs1)) as Hb. fold m2 in Hb.
  assert (Hm2 : 0 <= m2) by lia.
  assert (He2 : e1 <= fexp64 (Zdigits2 m2 + e1)).
  { rewrite <- He1 at 1. apply fexp64_mono.
    pose proof (@digits_mono (shr_m mrs1) m2 ltac:(lia)). lia. }
  pose proof (shr_fexp_normal loc_Exact Hm2 He2) as H3.
  destruct (shr_fexp prec emax m2 e1 loc_Exact) as [mrs3 e3].
  cbn [fst snd] in H3. destruct H3 as [Hm3 He3].
  destruct (shr_m mrs3) as [|p|p]; try reflexivity; try lia.
  destruct (e3 <=? emax - prec) eqn:Hle; [|reflexivity].
  unfold is_double, valid_binary, bounded, canonical_mantissa.
  rewrite Hle, andb_true_r. apply Z.eqb_eq. exact He3.
Qed.

Lemma digits2_pos_iter_xO (m d : positive) :
  Z.pos (digits2_pos (Pos.iter xO m d)) = Z.pos (digits2_pos m) + Z.pos d.
Proof.
  induction d as [|d IH] using Pos.peano_ind.
  - cbn. lia.
  - rewrite Pos.iter_succ. cbn [digits2_pos]. lia.
Qed.

Lemma binary_round_double (s : bool) (m : positive) (e : Z) :
  is_double (binary_round prec emax s m e) = true.
Proof.
  unfold binary_round, shl_align. fold fexp64.
  destruct (fexp64 (Z.pos (digits2_pos m) + e) - e) as [|d|d] eqn:E.
  - apply binary_round_aux_double; cbn [Zdigits2]; lia.
  - apply binary_round_aux_double; cbn [Zdigits2]; lia.
  - apply binary_round_aux_double; [lia|].
    cbn [Zdigits2]. rewrite digits2_pos_iter_xO.
    replace (Z.pos (digits2_pos m) + Z.pos d
             + fexp64 (Z.pos (digits2_pos m) + e))
      with (Z.pos (digits2_pos m) + e) by lia.
    lia.
Qed.

Lemma binary_normalize_double (m e : Z) (szero : bool) :
  is_double (binary_normalize prec emax m e szero) = true.
Proof.
  destruct m; cbn [binary_normalize]; try reflexivity;
    apply binary_round_double.
Qed.

Lemma quotient_digits (m1 m2 s : Z) :
  0 < m1 -> 0 < m2 -> 0 <= s ->
  0 <= m1 * 2 ^ s / m2
  /\ Zdigits2 m1 + s - Zdigits2 m2 <= Zdigits2 (m1 * 2 ^ s / m2).
Proof.
  intros H1 H2 Hs.
  assert (Hp : 0 < 2 ^ s) by (apply Z.pow_pos_nonneg; lia).
  assert (Hq : 0 <= m1 * 2 ^ s / m2) by (apply Z.div_pos; nia).
  split; [exact Hq|].
  destruct (Z_lt_le_dec (Zdigits2 m1 - 1 + s - Zdigits2 m2) 0) as [Hk|Hk].
  - pose proof (digits_nonneg (m1 * 2 ^ s / m2)). lia.
  - pose proof (@digits_lower (m1 * 2 ^ s / m2)
                  (Zdigits2 m1 - 1 + s - Zdigits2 m2) Hk) as HD.
    assert (2 ^ (Zdigits2 m1 - 1 + s - Zdigits2 m2) <= m1 * 2 ^ s / m2); [|lia].
    apply Z.div_le_lower_bound; [exact H2|].
    destruct (digits_pos_spec H1) as [Hl1 _].
    destruct (digits_pos_spec H2) as [_ Hu2].
    assert (0 < Zdigits2 m1) by (destruct m1; cbn; lia).
    assert (0 <= Zdigits2 m2) by apply digits_nonneg.
    assert (Hsplit : 2 ^ (Zdigits2 m1 - 1) * 2 ^ s
                     = 2 ^ (Zdigits2 m1 - 1 + s - Zdigits2 m2)
                       * 2 ^ Zdigits2 m2).
    { rewrite <- !Z.pow_add_r by lia. f_equal. lia. }
    assert (0 < 2 ^ (Zdigits2 m1 - 1 + s - Zdigits2 m2))
      by (apply Z.pow_pos_nonneg; lia).
    nia.
Qed.

Lemma div_core_double (s : bool) (m1 m2 : Z) :
  0 < m1 -> 0 < m2 ->
  is_double
    (let '(q, e, l) := SFdiv_core_binary prec emax m1 0 m2 0 in
     binary_round_aux prec emax s q e l) = true.
Proof.
  intros H1 H2. unfold SFdiv_core_binary. fold fexp64.
  rewrite !Z.add_0_r, Z.sub_diag.
  set (e' := Z.min (fexp64 (Zdigits2 m1 - Zdigits2 m2)) 0).
  assert (He' : e' <= 0) by (unfold e'; lia).
  assert (Hm' : match 0 - e' with
                | 0 => m1
                | Z.pos _ => Z.shiftl m1 (0 - e')
                | Z.neg _ => 0
                end = m1 * 2 ^ (0 - e')).
  { destruct (0 - e') as [|p|p] eqn:E; try lia.
    apply Z.shiftl_mul_pow2. lia. }
  rewrite Hm'.
  pose proof (@quotient_digits m1 m2 (0 - e') H1 H2 ltac:(lia)) as [Hq HD].
  unfold Z.div in Hq, HD.
  destruct (Z.div_eucl (m1 * 2 ^ (0 - e')) m2) as [q r].
  apply binary_round_aux_double; [exact Hq|].
  transitivity (fexp64 (Zdigits2 m1 - Zdigits2 m2)); [unfold e'; lia|].
  apply fexp64_mono. lia.
Qed.

Lemma of_decimal_double (neg : bool) (m e10 : Z) :
  is_double (of_decimal neg m e10) = true.
Proof.
  unfold of_decimal.
  destruct m as [|p|p]; try reflexivity.
  repeat match goal with
         | |- context [if ?b then _ else _] => destruct b eqn:?
         end; try reflexivity.
  - apply binary_normalize_double.
  - apply div_core_double; [lia|].
    apply Z.pow_pos_nonneg; lia.
Qed.

Lemma float_of_str_double (s : str) (x : float) :
  float_of_str s = Some x -> is_double x = true.
Proof.
  unfold float_of_str, read_number.
  repeat match goal with
         | |- context [match ?t with _ => _ end] =>
             lazymatch t with
             | context [match _ with _ => _ end] => fail
             | _ => destruct t eqn:?
             end
         end;
    intros H; try discriminate; injection H as <-;
    try reflexivity; apply of_decimal_double.
Qed.

(** Dividing a double by 1.0 is exact. *)
Lemma div_one (x : float) : is_double x = true -> div x one = x.
Proof.
  destruct x as [[|]|[|]| |s m e]; try reflexivity.
  unfold is_double, valid_binary, bounded, canonical_mantissa.
  intros H. apply andb_prop in H. destruct H as [Hc Hb].
  apply Z.eqb_eq in Hc. apply Z.leb_le in Hb.
  unfold div, one, of_Z.
  change (binary_normalize prec emax 1 0 false)
    with (S754_finite false 4503599627370496 (-52)).
  unfold SFdiv, SFdiv_core_binary.
  cbn [Zdigits2].
  change (Z.pos (digits2_pos 4503599627370496)) with 53.
  rewrite xorb_false_r.
  assert (Hcase : (e = -1074 /\ Z.pos (digits2_pos m) <= 53)
                  \/ (Z.pos (digits2_pos m) = 53 /\ -1074 < e)).
  { unfold fexp, emin, prec, emax in Hc. lia. }
  destruct Hcase as [[He Hd] | [Hd He]].
  - replace (Z.min (fexp prec emax
                      (Z.pos (digits2_pos m) + e - (53 + -52)))
                   (e - -52))
      with e by (unfold fexp, emin, prec, emax; lia).
    replace (e - -52 - e) with 52 by lia.
    rewrite Z.shiftl_mul_pow2 by lia.
    change (2 ^ 52) with 4503599627370496.
    rewrite div_eucl_mul by lia.
    change (new_location 4503599627370496 0) with loc_Exact.
    now apply round_exact.
  - replace (Z.min (fexp prec emax
                      (Z.pos (digits2_pos m) + e - (53 + -52)))
                   (e - -52))
      with (e - 1) by (unfold fexp, emin, prec, emax; lia).
    replace (e - -52 - (e - 1)) with 53 by lia.
    rewrite Z.shiftl_mul_pow2 by lia.
    change (2 ^ 53) with (2 * 4503599627370496).
    replace (Z.pos m * (2 * 4503599627370496))
      with (Z.pos m~0 * 4503599627370496) by lia.
    rewrite div_eucl_mul by lia.
    change (new_location 4503599627370496 0) with loc_Exact.
    now apply round_exact_double.
Qed.

Lemma np_mean_single (x : float) :
  is_double x = true -> np_mean [x] = add (zero false) x.
Proof.
  intros Hx. unfold np_mean. rewrite np_sum_single.
  now apply div_one, add_zero_pos_double.
Qed.

(** With one sample the deviation is 0 (or NaN), its square is divided
    by [max(1 - 1, 0) = 0], and the root of that is NaN. *)
Lemma np_std_single (x : float) :
  is_double x = true -> np_std [x] 1 = nan.
Proof.
  intros Hx. unfold np_std, np_var. cbv zeta.
  change (count [x]) with 1. change (Z.max (1 - 1) 0) with 0.
  cbn [map]. rewrite !np_sum_single.
  change (of_Z 1) with one.
  rewrite (@div_one _ (add_zero_pos_double x Hx)), !add_zero_pos.
  destruct x as [[|]|[|]| |s m e]; try reflexivity.
  destruct (sub_diag (S754_finite s m e)) as [H | H]; rewrite H; reflexivity.
Qed.

(** ** The order of the doubles *)

Lemma ltb_rank (x y : float) :
  ltb x y = true
  <-> isnan x = false /\ isnan y = false /\ lex_lt (rank x) (rank y).
Proof.
  unfold ltb, SFltb, lex_lt.
  destruct x as [sx|sx| |sx mx ex], y as [sy|sy| |sy my ey];
    try destruct sx; try destruct sy; cbn;
    try (split; [discriminate | intros (? & ? & ?); try discriminate; lia]);
    try (split; [intros _; repeat split; lia | reflexivity]).
  all: rewrite ?Pos.compare_cont_spec; cbn [Pos.switch_Eq].
  all: destruct (Z.compare_spec ex ey); destruct (Pos.compare_spec mx my); cbn.
  all: try (split; [discriminate | intros (? & ? & ?); try discriminate; lia]);
    try (split; [intros _; repeat split; lia | reflexivity]).
Qed.



Lemma lex_lt_irrefl (a : Z * Z * Z) : ~ lex_lt a a.
Proof. destruct a as [[? ?] ?]; cbn; lia. Qed.



Lemma ltb_nan_r (x y : float) : isnan y = true -> ltb x y = false.
Proof.
  intros H. destruct (ltb x y) eqn:E; [|reflexivity].
  apply ltb_rank in E. destruct E as (_ & E & _). congruence.
Qed.

Lemma ltb_nan_l (x y : float) : isnan x = true -> ltb x y = false.
Proof.
  intros H. destruct (ltb x y) eqn:E; [|reflexivity].
  apply ltb_rank in E. destruct E as (E & _). congruence.
Qed.

(** ** Whole numbers in double precision *)




























(** ** The order of whole numbers *)








(** ** Sums of whole numbers *)


















(** ** The statistics of whole numbers *)













(** ** Minimum and maximum of samples without a NaN *)












(** ** The four statistics *)




(** ** Scenarios *)

(** C6.  For a file that holds exactly the two rows [1,100,10,50] and
    [2,200,20,70], the samples are 50.0 and 70.0 and the program prints
    mean 60.00, standard deviation 14.14, minimum 50.00 and maximum
    70.00. *)
Theorem two_rows_scenario (argv0 path : str) (w : world) :
  files w path = Some two_rows ->
  read_batch_readiness_times binary64 path w
  = (Return [of_Z 50; of_Z 70], accessed path w)
  /\ main binary64 [argv0; path] w
     = (Return tt,
        printed [ lit "----- Results -----";
                  lit "Values: [50.0, 70.0]";
                  lit "Mean: 60.00 ms";
                  lit "Std Dev: 14.14 ms";
                  lit "Min: 50.00 ms";
                  lit "Max: 70.00 ms" ]
                (accessed path w)).
Proof.
  intros Hfile.
  assert (Hvalues : for_line_in binary64 (file_lines two_rows) []
                    = [of_Z 50; of_Z 70])
    by (vm_compute; reflexivity).
  split.
  - rewrite (read_batch_readiness_times_eq binary64 path w Hfile).
    now rewrite Hvalues.
  - rewrite (main_report binary64 argv0 path w Hfile)
      by (rewrite Hvalues; discriminate).
    rewrite Hvalues. do 2 f_equal.
Qed.

(** The samples of a file are doubles. *)
Lemma samples_are_doubles (f : list str) :
  Forall (fun x => is_double x = true) (for_line_in binary64 f []).
Proof.
  apply (@for_line_in_Forall binary64 (fun x => is_double x = true));
    [|constructor].
  exact float_of_str_double.
Qed.

(** C8.  For a file with exactly one sample [x], the standard deviation
    with [ddof=1] is NaN; the program goes past the test for an empty
    sample set, prints the four statistics and ends with status 0.  The
    standard deviation is printed as [nan], the minimum and the maximum
    are [x], and the mean is [0.0 + x]: [x] again, but 0.0 when [x] is
    -0.0. *)
Theorem single_sample_scenario
        (argv0 path : str) (w : world) (text : str) (x : float) :
  files w path = Some text ->
  for_line_in binary64 (file_lines text) [] = [x] ->
  np_std [x] 1 = nan
  /\ main binary64 [argv0; path] w
     = (Return tt,
        printed [ lit "----- Results -----";
                  lit "Values: [" ++ repr x ++ lit "]";
                  lit "Mean: "
                    ++ format_2f (match x with
                                  | S754_zero _ => zero false
                                  | _ => x
                                  end)
                    ++ lit " ms";
                  lit "Std Dev: nan ms";
                  lit "Min: " ++ format_2f x ++ lit " ms";
                  lit "Max: " ++ format_2f x ++ lit " ms" ]
                (accessed path w))
  /\ exit_status (fst (main binary64 [argv0; path] w)) = 0.
Proof.
  intros Hfile Hvalues.
  assert (Hx : is_double x = true).
  { pose proof (samples_are_doubles (file_lines text)) as H.
    rewrite Hvalues in H. now inversion H. }
  assert (Hrun : main binary64 [argv0; path] w
                 = (Return tt,
                    printed (report binary64 [x]) (accessed path w))).
  { rewrite (main_report binary64 argv0 path w Hfile)
      by (rewrite Hvalues; discriminate).
    now rewrite Hvalues. }
  split; [now apply np_std_single|].
  rewrite Hrun. split; [|reflexivity].
  unfold report. cbn [np_mean np_std np_min np_max format_2f repr_list
                        binary64 Script.np_mean Script.np_std
                        Script.np_min Script.np_max Script.format_2f
                        Script.repr_list].
  rewrite (np_mean_single x Hx), (np_std_single x Hx), add_zero_pos.
  reflexivity.
Qed.

(** C10.  [float] takes more than plain decimals: [inf], [nan], [1e3]
    and a decimal between spaces all parse, rows with such a fourth
    field give samples, and an infinity or a NaN that came in this way
    reaches the printed mean, standard deviation, minimum and
    maximum. *)
Theorem unusual_fields_accepted :
  float_ binary64 (lit "inf") = Some (inf false)
  /\ float_ binary64 (lit "nan") = Some nan
  /\ float_ binary64 (lit "1e3") = Some (of_Z 1000)
  /\ float_ binary64 (lit " 2.5 ") = Some two_and_a_half
  /\ fst (read_batch_readiness_times binary64 metrics
            (fresh (disk metrics unusual_rows)))
     = Return [inf false; nan; of_Z 1000; two_and_a_half]
  /\ main binary64 [prog; metrics] (fresh (disk metrics infinite_row))
     = (Return tt,
        printed [ lit "----- Results -----";
                  lit "Values: [inf, 4.0]";
                  lit "Mean: inf ms";
                  lit "Std Dev: nan ms";
                  lit "Min: 4.00 ms";
                  lit "Max: inf ms" ]
                (accessed metrics (fresh (disk metrics infinite_row))))
  /\ main binary64 [prog; metrics] (fresh (disk metrics nan_row))
     = (Return tt,
        printed [ lit "----- Results -----";
                  lit "Values: [nan, 4.0]";
                  lit "Mean: nan ms";
                  lit "Std Dev: nan ms";
                  lit "Min: nan ms";
                  lit "Max: nan ms" ]
                (accessed metrics (fresh (disk metrics nan_row)))).
Proof.
  repeat split; vm_compute; reflexivity.
Qed.

End Doubles.

(** * The theorems at concrete inputs *)

Module Witnesses.

Import Binary64.


Lemma read_batch_readiness_times_spec_witness :
  files w_mixed metrics = Some mixed_log
  /\ read_batch_readiness_times binary64 metrics w_mixed
     = (Return [of_Z 50; of_Z 70], accessed metrics w_mixed).
Proof.
  split; [reflexivity|].
  exact (@read_batch_readiness_times_spec binary64 metrics w_mixed
           mixed_log eq_refl).
Defined.

Lemma marker_line_contributes_nothing_witness :
  fst (read_batch_readiness_times binary64 metrics w_mixed)
  = Return ([of_Z 50; of_Z 70] ++ []).
Proof.
  apply (@marker_line_contributes_nothing binary64 metrics w_mixed
           mixed_log
           (firstn 6 (file_lines mixed_log))
           (lit "Average Batch Time: 60" ++ [LF])
           (skipn 7 (file_lines mixed_log))).
  - reflexivity.
  - vm_compute; reflexivity.
  - right; right; left. vm_compute; reflexivity.
Defined.

Lemma read_batch_readiness_times_deterministic_witness :
  fst (read_batch_readiness_times binary64 metrics w_mixed)
  = fst (read_batch_readiness_times binary64 (lit "copy.txt")
           (printed [prog] (fresh (disk (lit "copy.txt") mixed_log)))).
Proof.
  apply (@read_batch_readiness_times_deterministic binary64
           metrics (lit "copy.txt") w_mixed
           (printed [prog] (fresh (disk (lit "copy.txt") mixed_log)))
           mixed_log); reflexivity.
Defined.

Lemma fields_after_the_fourth_ignored_witness :
  fst (read_batch_readiness_times binary64 metrics w_mixed)
  = Return ([of_Z 50] ++ [of_Z 70] ++ []).
Proof.
  apply (@fields_after_the_fourth_ignored binary64 metrics w_mixed
           mixed_log
           (firstn 5 (file_lines mixed_log))
           (lit "2,200,20,70,7,8" ++ [LF])
           (skipn 6 (file_lines mixed_log))
           (lit "2") (lit "200") (lit "20") (lit "70") (lit "7")
           [lit "8"]).
  - reflexivity.
  - vm_compute; reflexivity.
  - vm_compute; reflexivity.
  - vm_compute; reflexivity.
Defined.

Lemma exit_status_one_file_witness :
  exit_status (fst (main binary64 [prog; metrics] w_mixed)) = 0%Z
  /\ main binary64 [prog; metrics] (fresh (disk metrics only_markers))
     = (Raise (SystemExit 1),
        printed [lit "No valid data found in file."]
                (accessed metrics (fresh (disk metrics only_markers)))).
Proof.
  split.
  - apply (@exit_status_one_file binary64 prog metrics w_mixed
             mixed_log eq_refl).
    vm_compute; discriminate.
  - apply (@exit_status_one_file binary64 prog metrics
             (fresh (disk metrics only_markers)) only_markers eq_refl).
    vm_compute; reflexivity.
Defined.

Lemma usage_on_wrong_arity_witness :
  exit_status (fst (main binary64 [prog] w_mixed)) = 1%Z
  /\ opened (snd (main binary64 [prog; metrics; metrics] w_mixed)) = [].
Proof.
  split.
  - apply (@usage_on_wrong_arity binary64 [prog] w_mixed).
    cbn; lia.
  - apply (@usage_on_wrong_arity binary64 [prog; metrics; metrics]
             w_mixed).
    cbn; lia.
Defined.

Lemma two_rows_scenario_witness :
  files (fresh (disk metrics two_rows)) metrics = Some two_rows
  /\ fst (read_batch_readiness_times binary64 metrics
            (fresh (disk metrics two_rows)))
     = Return [of_Z 50; of_Z 70].
Proof.
  split; [reflexivity|].
  now rewrite (proj1 (@two_rows_scenario prog metrics
                        (fresh (disk metrics two_rows)) eq_refl)).
Defined.

Lemma single_sample_scenario_witness :
  for_line_in binary64 (file_lines single_row) [] = [of_Z 5]
  /\ np_std [of_Z 5] 1 = nan
  /\ exit_status
       (fst (main binary64 [prog; metrics]
               (fresh (disk metrics single_row)))) = 0%Z
  /\ main binary64 [prog; metrics] (fresh (disk metrics negative_zero_row))
     = (Return tt,
        printed [ lit "----- Results -----";
                  lit "Values: [-0.0]";
                  lit "Mean: 0.00 ms";
                  lit "Std Dev: nan ms";
                  lit "Min: -0.00 ms";
                  lit "Max: -0.00 ms" ]
                (accessed metrics
                   (fresh (disk metrics negative_zero_row)))).
Proof.
  split; [vm_compute; reflexivity|].
  pose proof (@single_sample_scenario prog metrics
                (fresh (disk metrics single_row)) single_row (of_Z 5)
                eq_refl) as H.
  split; [apply H; vm_compute; reflexivity|].
  split; [apply H; vm_compute; reflexivity|].
  pose proof (@single_sample_scenario prog metrics
                (fresh (disk metrics negative_zero_row))
                negative_zero_row (zero true) eq_refl) as H0.
  rewrite (proj1 (proj2 (H0 ltac:(vm_compute; reflexivity)))).
  vm_compute. reflexivity.
Defined.

End Witnesses.

(** * Further properties *)

Section MoreParsing.

Variable R : Runtime.

Lemma lstrip_spaces (ws : str) : all_space ws -> lstrip ws = [].
Proof.
  induction 1 as [|c ws Hc _ IH]; cbn; [reflexivity|]. now rewrite Hc.
Qed.

Lemma lstrip_app_spaces (ws l : str) :
  all_space ws -> lstrip (ws ++ l) = lstrip l.
Proof.
  induction 1 as [|c ws Hc _ IH]; cbn; [reflexivity|]. now rewrite Hc.
Qed.

Lemma rstrip_app_spaces (l ws : str) :
  all_space ws -> rstrip (l ++ ws) = rstrip l.
Proof.
  intros H. unfold rstrip. rewrite rev_app_distr.
  rewrite lstrip_app_spaces; [reflexivity|].
  now apply Forall_rev.
Qed.

Lemma strip_spaces_around (ws l ws' : str) :
  all_space ws -> all_space ws' -> strip (ws ++ l ++ ws') = strip l.
Proof.
  intros H H'. unfold strip. rewrite (lstrip_app_spaces _ H).
  induction l as [|c l IH]; cbn [app lstrip].
  - now rewrite (lstrip_spaces H').
  - destruct (isspace c); [exact IH|].
    now rewrite app_comm_cons, rstrip_app_spaces.
Qed.

Lemma for_line_in_same_strip (line line' : str) (f : list str) :
  strip line = strip line' ->
  for_line_in R (line :: f) [] = for_line_in R (line' :: f) [].
Proof. intros H. cbn [for_line_in]. now rewrite H. Qed.

Lemma blank_all_space (s : str) : blank s = true -> all_space s.
Proof.
  intros H. apply Forall_forall. intros c Hc.
  exact (proj1 (forallb_forall _ _) H c Hc).
Qed.

(** X1.  White space before and after the text of a line plays no part:
    the samples are those of the file with the bare line. *)
Theorem spaces_around_a_line_ignored
        (before after : list str) (ws line ws' : str) :
  blank ws = true -> blank ws' = true ->
  for_line_in R (before ++ (ws ++ line ++ ws') :: after) []
  = for_line_in R (before ++ line :: after) [].
Proof.
  intros H H'. apply blank_all_space in H, H'.
  rewrite !for_line_in_app. f_equal.
  apply for_line_in_same_strip. now apply strip_spaces_around.
Qed.

Lemma split_length (sep : char) (s : str) :
  List.length (split sep s) = S (count_char sep s).
Proof.
  induction s as [|c s IH]; [reflexivity|].
  cbn [split count_char].
  destruct (char_eqb c sep); cbn [List.length Nat.add]; [now rewrite IH|].
  destruct (split sep s) as [|p ps]; [discriminate|]. exact IH.
Qed.

(** X2.  A line whose text holds fewer than three commas gives no
    sample, whatever it holds. *)
Theorem fewer_than_three_commas_no_sample
        (before after : list str) (line : str) :
  (count_char comma (strip line) < 3)%nat ->
  for_line_in R (before ++ line :: after) []
  = for_line_in R (before ++ after) [].
Proof.
  intros H. rewrite !for_line_in_app. f_equal.
  rewrite for_line_in_cons.
  unfold sample_of_line, fields.
  destruct (is_skipped line); [reflexivity|].
  rewrite nth_error_nth_3, split_length.
  destruct (Nat.ltb_spec (S (count_char comma (strip line))) 4);
    [reflexivity|lia].
Qed.

Lemma for_line_in_length (f : list str) :
  (List.length (for_line_in R f []) <= List.length f)%nat.
Proof.
  induction f as [|line f IH]; [cbn; lia|].
  rewrite for_line_in_cons, length_app.
  destruct (sample_of_line R line); cbn [to_list List.length]; lia.
Qed.

End MoreParsing.

Section Newlines.

Variable R : Runtime.

(** [universal_newlines] cuts cleanly after a line feed. *)
Lemma universal_newlines_app_LF_aux (n : nat) :
  forall t t2, (List.length t <= n)%nat ->
    universal_newlines (t ++ LF :: t2)
    = universal_newlines (t ++ [LF]) ++ universal_newlines t2.
Proof.
  induction n as [|n IH]; intros t t2 Hn.
  - destruct t; [reflexivity|cbn in Hn; lia].
  - destruct t as [|c t]; [reflexivity|].
    cbn [app universal_newlines].
    destruct (char_eqb c CR).
    + destruct t as [|d t]; cbn [app].
      * reflexivity.
      * destruct (char_eqb d LF); cbn [app]; f_equal.
        -- apply IH. cbn in Hn. lia.
        -- apply (IH (d :: t)). cbn in Hn |- *. lia.
    + cbn [app]. f_equal. apply IH. cbn in Hn. lia.
Qed.

Lemma universal_newlines_app_LF (t t2 : str) :
  universal_newlines (t ++ LF :: t2)
  = universal_newlines (t ++ [LF]) ++ universal_newlines t2.
Proof. now apply (universal_newlines_app_LF_aux (n := List.length t)). Qed.

Lemma universal_newlines_ends_LF_aux (n : nat) :
  forall t, (List.length t <= n)%nat ->
    exists u, universal_newlines (t ++ [LF]) = u ++ [LF].
Proof.
  induction n as [|n IH]; intros t Hn.
  - destruct t; [now exists []|cbn in Hn; lia].
  - destruct t as [|c t]; [now exists []|].
    cbn [app universal_newlines].
    destruct (char_eqb c CR).
    + destruct t as [|d t]; cbn [app].
      * now exists [].
      * destruct (char_eqb d LF).
        -- destruct (IH t ltac:(cbn in Hn; lia)) as [u Hu].
           exists (LF :: u). now rewrite Hu.
        -- destruct (IH (d :: t) ltac:(cbn in Hn |- *; lia)) as [u Hu].
           exists (LF :: u). cbn [app] in Hu. now rewrite Hu.
    + destruct (IH t ltac:(cbn in Hn; lia)) as [u Hu].
      exists (c :: u). now rewrite Hu.
Qed.

Lemma lines_from_app_LF (u s2 cur : str) :
  lines_from cur (u ++ LF :: s2)
  = lines_from cur (u ++ [LF]) ++ lines_from [] s2.
Proof.
  revert cur.
  induction u as [|c u IH]; intros cur; cbn [app lines_from].
  - reflexivity.
  - destruct (char_eqb c LF); [|apply IH].
    cbn [app]. f_equal. apply IH.
Qed.

Lemma file_lines_app_LF (t t2 : str) :
  file_lines (t ++ LF :: t2) = file_lines (t ++ [LF]) ++ file_lines t2.
Proof.
  unfold file_lines. rewrite universal_newlines_app_LF.
  destruct (universal_newlines_ends_LF_aux (n := List.length t) t
              (le_n _)) as [u Hu].
  rewrite Hu, <- app_assoc. cbn [app].
  apply lines_from_app_LF.
Qed.

(** X3.  When a text ends with a line feed, the samples of that text
    followed by a second one are the samples of the first followed by the
    samples of the second. *)
Theorem concatenated_files_concatenate_samples (t t2 : str) :
  for_line_in R (file_lines ((t ++ [LF]) ++ t2)) []
  = for_line_in R (file_lines (t ++ [LF])) []
    ++ for_line_in R (file_lines t2) [].
Proof.
  rewrite <- app_assoc. cbn [app].
  now rewrite file_lines_app_LF, for_line_in_app.
Qed.

Lemma universal_newlines_no_CR (t : str) :
  no_CR t -> universal_newlines t = t.
Proof.
  induction 1 as [|c t Hc _ IH]; [reflexivity|].
  cbn [universal_newlines]. now rewrite Hc, IH.
Qed.

Lemma universal_newlines_CRLF (t : str) :
  no_CR t -> universal_newlines (with_newline [CR; LF] t) = t.
Proof.
  induction 1 as [|c t Hc _ IH]; [reflexivity|].
  cbn [with_newline].
  destruct (char_eqb c LF) eqn:E.
  - apply N.eqb_eq in E. subst c. cbn. now rewrite IH.
  - cbn [universal_newlines]. now rewrite Hc, IH.
Qed.

Lemma with_newline_CR_head (t : str) :
  match with_newline [CR] t with
  | d :: _ => char_eqb d LF = false
  | [] => True
  end.
Proof.
  destruct t as [|c t]; [exact I|]. cbn [with_newline].
  destruct (char_eqb c LF) eqn:E; [reflexivity|exact E].
Qed.

Lemma universal_newlines_CR (t : str) :
  no_CR t -> universal_newlines (with_newline [CR] t) = t.
Proof.
  induction 1 as [|c t Hc _ IH]; [reflexivity|].
  cbn [with_newline].
  destruct (char_eqb c LF) eqn:E.
  - apply N.eqb_eq in E. subst c. cbn [app universal_newlines].
    change (char_eqb CR CR) with true. cbv iota.
    pose proof (with_newline_CR_head t) as Hh.
    destruct (with_newline [CR] t) as [|d t'] eqn:Et.
    + destruct t; [reflexivity|].
      cbn [with_newline] in Et. destruct (char_eqb c LF); discriminate.
    + rewrite Hh. now rewrite IH.
  - cbn [universal_newlines]. now rewrite Hc, IH.
Qed.

Lemma CR_free_no_CR (t : str) : CR_free t = true -> no_CR t.
Proof.
  intros H. apply Forall_forall. intros c Hc.
  pose proof (proj1 (forallb_forall _ _) H c Hc) as Hn.
  now apply negb_true_iff in Hn.
Qed.

(** X4.  Line endings play no part: a text whose lines end with a line
    feed gives the same samples when every line ends with a carriage
    return and a line feed, or with a carriage return alone. *)
Theorem line_endings_do_not_matter (t : str) :
  CR_free t = true ->
  for_line_in R (file_lines (with_newline [CR; LF] t)) []
  = for_line_in R (file_lines t) []
  /\ for_line_in R (file_lines (with_newline [CR] t)) []
     = for_line_in R (file_lines t) [].
Proof.
  intros H. apply CR_free_no_CR in H. unfold file_lines.
  now rewrite universal_newlines_CRLF, universal_newlines_CR,
    universal_newlines_no_CR.
Qed.

End Newlines.

Section MoreMain.

Variable R : Runtime.

Lemma spec_samples_nil (f : list str) :
  spec_samples R f = []
  <-> forall line, In line f -> sample_of_line R line = None.
Proof.
  induction f as [|l f IH]; cbn [spec_samples flat_map].
  - split; [intros _ line []|reflexivity].
  - fold (spec_samples R f). split.
    + intros H. apply app_eq_nil in H. destruct H as [H1 H2].
      intros line [<-|Hin].
      * destruct (sample_of_line R l); [discriminate|reflexivity].
      * now apply IH.
    + intros H. rewrite (H l (or_introl eq_refl)). cbn [to_list app].
      apply IH. intros line Hin. apply H. now right.
Qed.

Lemma length_two (A : Type) (l : list A) :
  List.length l = 2%nat -> exists a b, l = [a; b].
Proof.
  destruct l as [|a [|b [|c l]]]; try discriminate. intros _. now exists a, b.
Qed.

(** X5.  The exit status is 0 or 1, whatever the arguments and the
    files; it is 0 exactly when there is one argument after the program
    name, it names a file that can be read, and some line of that file
    gives a sample. *)
Theorem exit_status_characterised (argv : list str) (w : world) :
  let status := exit_status (fst (main R argv w)) in
  (status = 0 \/ status = 1)%Z
  /\ (status = 0%Z <->
      exists argv0 path text line,
        argv = [argv0; path]
        /\ files w path = Some text
        /\ In line (file_lines text)
        /\ sample_of_line R line <> None).
Proof.
  cbv zeta.
  destruct (Nat.eq_dec (List.length argv) 2) as [Hlen|Hlen].
  - destruct (length_two argv Hlen) as (argv0 & path & ->).
    destruct (files w path) as [text|] eqn:Hfile.
    + destruct (for_line_in R (file_lines text) []) as [|v values] eqn:Hv.
      * rewrite (main_no_data R argv0 path w Hfile Hv). cbn.
        split; [now right|]. split; [discriminate|].
        intros (a & p & t & line & E & Hf & Hin & Hs).
        injection E as <- <-. rewrite Hfile in Hf. injection Hf as <-.
        rewrite for_line_in_spec in Hv.
        destruct Hs. now apply (proj1 (spec_samples_nil _) Hv).
      * rewrite (main_report R argv0 path w Hfile)
          by (rewrite Hv; discriminate).
        cbn. split; [now left|]. split; [intros _|reflexivity].
        rewrite for_line_in_spec in Hv.
        destruct (existsb (fun l => match sample_of_line R l with
                                    | Some _ => true | None => false end)
                          (file_lines text)) eqn:Ex.
        -- apply existsb_exists in Ex. destruct Ex as (line & Hin & Hl).
           exists argv0, path, text, line. repeat split; try assumption.
           destruct (sample_of_line R line); [discriminate|discriminate].
        -- assert (Hnil : spec_samples R (file_lines text) = []).
           { apply spec_samples_nil. intros line Hin.
             destruct (sample_of_line R line) eqn:E; [|reflexivity].
             assert (existsb (fun l => match sample_of_line R l with
                                    | Some _ => true | None => false end)
                          (file_lines text) = true); [|congruence].
             apply existsb_exists. exists line. now rewrite E. }
           rewrite Hnil in Hv. discriminate.
    + rewrite (main_unreadable R argv0 path w Hfile). cbn.
      split; [now right|]. split; [discriminate|].
      intros (a & p & t & line & E & Hf & _).
      injection E as <- <-. congruence.
  - rewrite (main_usage R argv w Hlen). cbn.
    split; [now right|]. split; [discriminate|].
    intros (a & p & t & line & -> & _). now destruct Hlen.
Qed.

(** X6.  A run leaves the files as they were, only adds to what was
    printed (nothing, one line, or the six lines of the report), and opens
    the path of its one argument, once, or no path at all when the number
    of arguments is wrong. *)
Theorem main_frame (argv : list str) (w : world) :
  let w' := snd (main R argv w) in
  files w' = files w
  /\ (exists out, stdout w' = stdout w ++ out
                  /\ (List.length out = 0 \/ List.length out = 1
                      \/ List.length out = 6)%nat)
  /\ (List.length argv = 2%nat -> opened w' = opened w ++ [nth 1 argv []])
  /\ (List.length argv <> 2%nat -> opened w' = opened w).
Proof.
  cbv zeta.
  destruct (Nat.eq_dec (List.length argv) 2) as [Hlen|Hlen].
  - destruct (length_two argv Hlen) as (argv0 & path & ->).
    destruct (files w path) as [text|] eqn:Hfile.
    + destruct (for_line_in R (file_lines text) []) as [|v values] eqn:Hv.
      * rewrite (main_no_data R argv0 path w Hfile Hv). cbn.
        repeat split; try tauto. eexists. split; [reflexivity|]. cbn. tauto.
      * rewrite (main_report R argv0 path w Hfile)
          by (rewrite Hv; discriminate).
        cbn. repeat split; try tauto.
        eexists. split; [reflexivity|]. cbn. tauto.
    + rewrite (main_unreadable R argv0 path w Hfile). cbn.
      repeat split; try tauto. exists []. rewrite app_nil_r. cbn. tauto.
  - rewrite (main_usage R argv w Hlen). cbn.
    repeat split; try tauto. eexists. split; [reflexivity|]. cbn. tauto.
Qed.

(** X7.  A file that is read gives one sample per line at most: the
    call returns a sequence that is no longer than the file has lines. *)
Theorem at_most_one_sample_per_line
        (path : str) (w : world) (text : str) :
  files w path = Some text ->
  exists values,
    read_batch_readiness_times R path w = (Return values, accessed path w)
    /\ (List.length values <= List.length (file_lines text))%nat.
Proof.
  intros Hfile. eexists. split.
  - apply (read_batch_readiness_times_eq R path w Hfile).
  - apply for_line_in_length.
Qed.

End MoreMain.

Section Poison.

Import Binary64.
Local Open Scope Z_scope.

Lemma add_nan_l (x : float) : add nan x = nan.
Proof. reflexivity. Qed.

Lemma add_nan_r (x : float) : add x nan = nan.
Proof. now destruct x. Qed.

Lemma fold_add_nan (l : list float) : fold_left add l nan = nan.
Proof. induction l as [|y l IH]; [reflexivity|exact IH]. Qed.

Lemma fold_add_In_nan (l : list float) (init : float) :
  In nan l -> fold_left add l init = nan.
Proof.
  revert init. induction l as [|y l IH]; intros init; [intros []|].
  intros [->|H]; cbn [fold_left].
  - rewrite add_nan_r. apply fold_add_nan.
  - now apply IH.
Qed.

Lemma add_lanes_nan_l (r a : list float) :
  In nan r -> In nan (add_lanes r a).
Proof.
  revert a. induction r as [|x r IH]; intros a; [intros []|].
  intros H. destruct a as [|y a]; [exact H|]. cbn [add_lanes].
  destruct H as [->|H]; [now left|right; now apply IH].
Qed.

Lemma add_lanes_nan_r (r a : list float) :
  (List.length a <= List.length r)%nat ->
  In nan a -> In nan (add_lanes r a).
Proof.
  revert a. induction r as [|x r IH]; intros a Hlen H.
  - destruct a; [destruct H|cbn in Hlen; lia].
  - destruct a as [|y a]; [destruct H|]. cbn [add_lanes].
    destruct H as [->|H].
    + left. apply add_nan_r.
    + right. apply IH; [cbn in Hlen; lia|exact H].
Qed.

Lemma add_lanes_length (r a : list float) :
  List.length (add_lanes r a) = List.length r.
Proof.
  revert a. induction r as [|x r IH]; intros a; [reflexivity|].
  destruct a; [reflexivity|]. cbn. now rewrite IH.
Qed.

Lemma In_firstn_skipn (A : Type) (x : A) (n : nat) (l : list A) :
  In x l -> In x (firstn n l) \/ In x (skipn n l).
Proof.
  intros H. rewrite <- (firstn_skipn n l) in H. now apply in_app_or.
Qed.

Lemma lanes_nan (blocks : nat) :
  forall r a,
    (List.length r = 8%nat \/ a = []) ->
    In nan r \/ In nan a ->
    In nan (fst (lanes blocks r a)) \/ In nan (snd (lanes blocks r a)).
Proof.
  induction blocks as [|b IH]; intros r a Hlen H; [exact H|].
  cbn [lanes]. apply IH.
  - rewrite add_lanes_length.
    destruct Hlen as [Hlen| ->]; [now left|now right].
  - destruct H as [H|H].
    + left. now apply add_lanes_nan_l.
    + destruct (@In_firstn_skipn _ nan 8 a H) as [H1|H2]; [left|now right].
      apply add_lanes_nan_r; [|exact H1].
      destruct Hlen as [Hlen| ->]; [|destruct H].
      rewrite Hlen. rewrite length_firstn. lia.
Qed.

Lemma tree8_nan (r : list float) : In nan r -> tree8 r = nan.
Proof.
  intros H.
  destruct r as [|r0 [|r1 [|r2 [|r3 [|r4 [|r5 [|r6 [|r7 [|r8 r]]]]]]]]];
    try (now apply fold_add_In_nan).
  cbn [tree8].
  repeat (destruct H as [->|H];
          [now rewrite ?add_nan_r, ?add_nan_l, ?add_nan_r|]).
  destruct H.
Qed.

Lemma block_sum_nan (a : list float) : In nan a -> block_sum a = nan.
Proof.
  intros H. unfold block_sum.
  pose proof (@lanes_nan (List.length a / 8 - 1) (firstn 8 a) (skipn 8 a))
    as L.
  destruct (lanes (List.length a / 8 - 1) (firstn 8 a) (skipn 8 a))
    as [r rest].
  cbn [fst snd] in L.
  destruct L as [L|L].
  - rewrite length_firstn.
    destruct (Nat.le_gt_cases 8 (List.length a)) as [Hn|Hn]; [left; lia|].
    right. apply skipn_all2. lia.
  - now apply In_firstn_skipn.
  - rewrite (tree8_nan r L). apply fold_add_nan.
  - now apply fold_add_In_nan.
Qed.

Lemma pairwise_sum_nan (fuel : nat) :
  forall a, In nan a -> pairwise_sum fuel a = nan.
Proof.
  induction fuel as [|fuel IH]; intros a H; cbn [pairwise_sum].
  - destruct (_ <? 8)%nat; [now apply fold_add_In_nan|].
    destruct (_ <=? 128)%nat; now apply block_sum_nan.
  - destruct (_ <? 8)%nat; [now apply fold_add_In_nan|].
    destruct (_ <=? 128)%nat; [now apply block_sum_nan|].
    destruct (@In_firstn_skipn _ nan
                (List.length a / 2 - (List.length a / 2) mod 8) a H)
      as [H1|H2].
    + now rewrite (IH _ H1).
    + rewrite (IH _ H2). apply add_nan_r.
Qed.

Lemma np_sum_nan (a : list float) : In nan a -> np_sum a = nan.
Proof.
  intros H. unfold np_sum. now rewrite pairwise_sum_nan.
Qed.

Lemma np_mean_nan (a : list float) : In nan a -> np_mean a = nan.
Proof. intros H. unfold np_mean. now rewrite np_sum_nan. Qed.

Lemma sub_nan_r (x : float) : sub x nan = nan.
Proof. now destruct x. Qed.

Lemma np_std_nan (a : list float) (ddof : Z) :
  In nan a -> np_std a ddof = nan.
Proof.
  intros H. unfold np_std, np_var. cbv zeta.
  rewrite (np_sum_nan a H). change (div nan (of_Z (count a))) with nan.
  rewrite np_sum_nan; [reflexivity|].
  rewrite map_map. apply in_map_iff. exists nan. split; [reflexivity|exact H].
Qed.

Lemma fold_pick_nan (before : float -> float -> bool) (l : list float) :
  fold_left (pick before) l nan = nan.
Proof.
  induction l as [|y l IH]; [reflexivity|]. cbn [fold_left].
  unfold pick at 2. cbn [isnan]. now rewrite orb_true_r.
Qed.

Lemma fold_pick_In_nan (before : float -> float -> bool) :
  (forall x, before x nan = false) ->
  forall l acc, In nan l -> fold_left (pick before) l acc = nan.
Proof.
  intros Hu l. induction l as [|y l IH]; intros acc; [intros []|].
  intros [->|H]; cbn [fold_left]; [|now apply IH].
  unfold pick at 2. rewrite Hu.
  destruct acc; cbn [isnan orb]; apply fold_pick_nan.
Qed.

Lemma np_min_nan (a : list float) : In nan a -> np_min a = nan.
Proof.
  destruct a as [|x a]; [intros []|]. intros [->|H].
  - apply (fold_pick_nan ltb).
  - apply (fold_pick_In_nan ltb (fun x => @ltb_nan_r x nan eq_refl));
      exact H.
Qed.

Lemma np_max_nan (a : list float) : In nan a -> np_max a = nan.
Proof.
  destruct a as [|x a]; [intros []|]. intros [->|H].
  - apply (fold_pick_nan (fun u v => ltb v u)).
  - apply (fold_pick_In_nan (fun u v => ltb v u)
             (fun x => @ltb_nan_l nan x eq_refl)); exact H.
Qed.

Lemma has_nan_In (a : list float) : has_nan a = true -> In nan a.
Proof.
  intros H. apply existsb_exists in H. destruct H as (x & Hin & Hx).
  now destruct x.
Qed.

(** X8.  When one sample is a NaN, the mean, the standard deviation, the
    minimum and the maximum are all printed as [nan], whatever the other
    samples are. *)
Theorem nan_sample_poisons_statistics
        (argv0 path : str) (w : world) (text : str) :
  files w path = Some text ->
  let values := for_line_in binary64 (file_lines text) [] in
  has_nan values = true ->
  main binary64 [argv0; path] w
  = (Return tt,
     printed [ lit "----- Results -----";
               lit "Values: " ++ repr_list values;
               lit "Mean: nan ms";
               lit "Std Dev: nan ms";
               lit "Min: nan ms";
               lit "Max: nan ms" ]
             (accessed path w)).
Proof.
  intros Hfile values Hnan. apply has_nan_In in Hnan.
  rewrite (main_report binary64 argv0 path w Hfile)
    by (fold values; destruct values; [destruct Hnan|discriminate]).
  fold values. unfold report.
  cbn [binary64 Script.np_mean Script.np_std Script.np_min Script.np_max
         Script.format_2f Script.repr_list].
  rewrite (np_mean_nan values Hnan), (np_std_nan values 1 Hnan),
    (np_min_nan values Hnan), (np_max_nan values Hnan).
  reflexivity.
Qed.

End Poison.

Section Sign.

Import Binary64.
Local Open Scope Z_scope.

Lemma round_aux_nonneg (m e : Z) (l : location) :
  nonneg (binary_round_aux prec emax false m e l) = true.
Proof.
  unfold binary_round_aux.
  destruct (shr_fexp prec emax m e l) as [mrs1 e1].
  destruct (shr_fexp prec emax _ e1 loc_Exact) as [mrs3 e3].
  destruct (shr_m mrs3); try reflexivity.
  now destruct (e3 <=? emax - prec).
Qed.

Lemma round_nonneg (m : positive) (e : Z) :
  nonneg (binary_round prec emax false m e) = true.
Proof.
  unfold binary_round.
  destruct (shl_align m e _) as [mz ez]. apply round_aux_nonneg.
Qed.

Lemma add_nonneg (x y : float) :
  nonneg x = true -> nonneg y = true -> nonneg (add x y) = true.
Proof.
  destruct x as [[|]|[|]| |[|] mx ex], y as [[|]|[|]| |[|] my ey];
    try discriminate; try reflexivity.
  intros _ _. unfold add, SFadd. cbn [cond_Zopp Z.add binary_normalize].
  apply round_nonneg.
Qed.

Lemma fold_add_nonneg (l : list float) (init : float) :
  nonneg init = true -> Forall (fun v => nonneg v = true) l ->
  nonneg (fold_left add l init) = true.
Proof.
  revert init. induction l as [|y l IH]; intros init Hi Hl; [exact Hi|].
  inversion Hl; subst. cbn [fold_left]. apply IH; [|assumption].
  now apply add_nonneg.
Qed.

Lemma fold_add_from_zero_nonneg (l : list float) :
  l <> [] -> Forall (fun v => nonneg v = true) l ->
  nonneg (fold_left add l (zero true)) = true.
Proof.
  destruct l as [|x l]; [congruence|]. intros _ Hl. inversion Hl; subst.
  cbn [fold_left]. rewrite add_zero_neg. now apply fold_add_nonneg.
Qed.

Lemma add_lanes_nonneg (r a : list float) :
  Forall (fun v => nonneg v = true) r ->
  Forall (fun v => nonneg v = true) a ->
  Forall (fun v => nonneg v = true) (add_lanes r a).
Proof.
  intros Hr. revert a. induction Hr as [|x r Hx Hr IH]; intros a Ha.
  - constructor.
  - destruct a as [|y a]; [now constructor|]. inversion Ha; subst.
    cbn [add_lanes]. constructor; [now apply add_nonneg|now apply IH].
Qed.

Lemma Forall_first_n (A : Type) (P : A -> Prop) (n : nat) (l : list A) :
  Forall P l -> Forall P (firstn n l).
Proof.
  intros H. rewrite <- (firstn_skipn n l) in H.
  now apply Forall_app in H.
Qed.

Lemma Forall_skip_n (A : Type) (P : A -> Prop) (n : nat) (l : list A) :
  Forall P l -> Forall P (skipn n l).
Proof.
  intros H. rewrite <- (firstn_skipn n l) in H.
  now apply Forall_app in H.
Qed.

Lemma lanes_nonneg (blocks : nat) :
  forall r a,
    Forall (fun v => nonneg v = true) r ->
    Forall (fun v => nonneg v = true) a ->
    Forall (fun v => nonneg v = true) (fst (lanes blocks r a))
    /\ Forall (fun v => nonneg v = true) (snd (lanes blocks r a))
    /\ List.length (fst (lanes blocks r a)) = List.length r.
Proof.
  induction blocks as [|b IH]; intros r a Hr Ha; [now repeat split|].
  cbn [lanes].
  destruct (IH (add_lanes r (firstn 8 a)) (skipn 8 a)) as (H1 & H2 & H3).
  - apply add_lanes_nonneg; [exact Hr|now apply Forall_first_n].
  - now apply Forall_skip_n.
  - repeat split; try assumption. now rewrite H3, add_lanes_length.
Qed.

Lemma tree8_nonneg (r : list float) :
  List.length r = 8%nat -> Forall (fun v => nonneg v = true) r ->
  nonneg (tree8 r) = true.
Proof.
  destruct r as [|r0 [|r1 [|r2 [|r3 [|r4 [|r5 [|r6 [|r7 [|r8 r]]]]]]]]];
    try discriminate.
  intros _ H. cbn [tree8].
  repeat match goal with
         | H : Forall _ (_ :: _) |- _ => inversion H; subst; clear H
         end.
  repeat apply add_nonneg; assumption.
Qed.

Lemma block_sum_nonneg (a : list float) :
  (8 <= List.length a)%nat -> Forall (fun v => nonneg v = true) a ->
  nonneg (block_sum a) = true.
Proof.
  intros Hn Ha. unfold block_sum.
  destruct (@lanes_nonneg (List.length a / 8 - 1) (firstn 8 a) (skipn 8 a))
    as (H1 & H2 & H3).
  - now apply Forall_first_n.
  - now apply Forall_skip_n.
  - destruct (lanes (List.length a / 8 - 1) (firstn 8 a) (skipn 8 a))
      as [r rest].
    cbn [fst snd] in *.
    apply fold_add_nonneg; [|exact H2].
    apply tree8_nonneg; [|exact H1].
    rewrite H3, length_firstn. lia.
Qed.

Lemma pairwise_sum_nonneg (fuel : nat) :
  forall a, a <> [] -> Forall (fun v => nonneg v = true) a ->
            nonneg (pairwise_sum fuel a) = true.
Proof.
  induction fuel as [|fuel IH]; intros a Hne Ha; cbn [pairwise_sum].
  - destruct (Nat.ltb_spec (List.length a) 8);
      [now apply fold_add_from_zero_nonneg|].
    destruct (_ <=? 128)%nat; now apply block_sum_nonneg.
  - destruct (Nat.ltb_spec (List.length a) 8);
      [now apply fold_add_from_zero_nonneg|].
    destruct (Nat.leb_spec (List.length a) 128);
      [now apply block_sum_nonneg|].
    assert (Hdiv : (64 <= List.length a / 2)%nat)
      by (apply Nat.div_le_lower_bound; lia).
    assert (Hhalf : (List.length a / 2 < List.length a)%nat)
      by (apply Nat.div_lt; lia).
    assert (Hmod : ((List.length a / 2) mod 8 < 8)%nat)
      by (apply Nat.mod_upper_bound; lia).
    set (n2 := (List.length a / 2 - (List.length a / 2) mod 8)%nat).
    assert (Hn2 : (0 < n2 < List.length a)%nat) by (unfold n2; lia).
    clearbody n2.
    apply add_nonneg; apply IH.
    + intros E. apply (f_equal (@List.length _)) in E.
      rewrite length_firstn in E. cbn in E. lia.
    + now apply Forall_first_n.
    + intros E. apply (f_equal (@List.length _)) in E.
      rewrite length_skipn in E. cbn in E. lia.
    + now apply Forall_skip_n.
Qed.

Lemma np_sum_nonneg (a : list float) :
  Forall (fun v => nonneg v = true) a -> nonneg (np_sum a) = true.
Proof.
  intros Ha. unfold np_sum. destruct a as [|x a]; [reflexivity|].
  apply add_nonneg; [reflexivity|]. now apply pairwise_sum_nonneg.
Qed.

Lemma mul_self_nonneg (x : float) : nonneg (mul x x) = true.
Proof.
  destruct x as [[|]|[|]| |s m e]; try reflexivity.
  unfold mul, SFmul. rewrite xorb_nilpotent. apply round_aux_nonneg.
Qed.

Lemma div_nonneg (x y : float) :
  nonneg x = true -> nonneg y = true -> nonneg (div x y) = true.
Proof.
  destruct x as [[|]|[|]| |[|] mx ex], y as [[|]|[|]| |[|] my ey];
    try discriminate; try reflexivity.
  intros _ _. unfold div, SFdiv. cbn [xorb].
  destruct (SFdiv_core_binary prec emax (Z.pos mx) ex (Z.pos my) ey)
    as [[q e] l].
  apply round_aux_nonneg.
Qed.

Lemma sqrt_nonneg (x : float) :
  nonneg x = true -> nonneg (sqrt x) = true.
Proof.
  destruct x as [[|]|[|]| |[|] m e]; try discriminate; try reflexivity.
  intros _. unfold sqrt, SFsqrt.
  destruct (SFsqrt_core_binary prec emax (Z.pos m) e) as [[q e'] l].
  apply round_aux_nonneg.
Qed.

Lemma of_Z_nonneg (n : Z) : 0 <= n -> nonneg (of_Z n) = true.
Proof.
  destruct n as [|p|p]; intros H; [reflexivity| |lia].
  apply round_nonneg.
Qed.

Lemma np_std_nonneg (a : list float) (ddof : Z) :
  nonneg (np_std a ddof) = true.
Proof.
  unfold np_std, np_var. cbv zeta.
  apply sqrt_nonneg, div_nonneg; [|apply of_Z_nonneg; lia].
  apply np_sum_nonneg. rewrite map_map.
  apply Forall_forall. intros v Hv. apply in_map_iff in Hv.
  destruct Hv as (u & <- & _). apply mul_self_nonneg.
Qed.

End Sign.

Section Printing.

Import Binary64.
Local Open Scope Z_scope.

Lemma string_of_uint_digits (u : Decimal.uint) :
  Forall (fun c => is_digit c = true) (lit (NilEmpty.string_of_uint u)).
Proof.
  induction u; cbn [NilEmpty.string_of_uint]; try constructor;
    try reflexivity; assumption.
Qed.

Lemma str_of_Z_digits (n : Z) :
  Forall (fun c => is_digit c = true) (str_of_Z n).
Proof.
  unfold str_of_Z, NilZero.string_of_uint.
  destruct (N.to_uint (Z.to_N n)) eqn:E;
    try (rewrite <- E; apply string_of_uint_digits);
    try (apply string_of_uint_digits).
  repeat constructor.
Qed.

Lemma digits_no_minus (s : str) :
  Forall (fun c => is_digit c = true) s -> ~ In minus s.
Proof.
  intros H Hin. rewrite Forall_forall in H. specialize (H _ Hin).
  discriminate.
Qed.

Lemma format_2f_no_minus (x : float) :
  nonneg x = true -> ~ In minus (format_2f x).
Proof.
  destruct x as [[|]|[|]| |[|] m e]; try discriminate; intros _.
  - cbn. intuition discriminate.
  - cbn. intuition discriminate.
  - cbn. intuition discriminate.
  - unfold format_2f. destruct (fraction m e) as [num den].
    cbn [with_sign]. intros Hin.
    apply in_app_or in Hin. destruct Hin as [Hin|[Hin|Hin]].
    + exact (digits_no_minus (str_of_Z_digits _) Hin).
    + discriminate.
    + apply in_app_or in Hin. destruct Hin as [Hin|Hin].
      * apply repeat_spec in Hin. discriminate.
      * exact (digits_no_minus (str_of_Z_digits _) Hin).
Qed.

(** X9.  The standard deviation the program prints is never negative,
    not even a negative zero: it is a NaN, +0.0, a positive number or
    +infinity, and the text printed for it holds no minus sign. *)
Theorem std_dev_line_never_negative
        (argv0 path : str) (w : world) (text : str) :
  files w path = Some text ->
  for_line_in binary64 (file_lines text) [] <> [] ->
  exists (std : float) (l0 l1 l2 l4 l5 : str),
    main binary64 [argv0; path] w
    = (Return tt,
       printed [ l0; l1; l2;
                 lit "Std Dev: " ++ format_2f std ++ lit " ms";
                 l4; l5 ]
               (accessed path w))
    /\ nonneg std = true
    /\ ~ In minus (format_2f std).
Proof.
  intros Hfile Hvalues.
  rewrite (main_report binary64 argv0 path w Hfile Hvalues).
  unfold report.
  exists (np_std (for_line_in binary64 (file_lines text) []) 1).
  do 5 eexists. split; [reflexivity|].
  split; [apply np_std_nonneg|apply format_2f_no_minus, np_std_nonneg].
Qed.

End Printing.

Section BlankField.

Import Binary64.

Lemma isspace_ascii_or_more (c : char) :
  isspace c = true ->
  ((c <=? 127)%N = true
   /\ (c_isspace c = true \/ (28 <= c <= 31)%N))
  \/ (c <=? 127)%N = false.
Proof.
  intros H. destruct (c <=? 127)%N eqn:E; [left|now right].
  split; [reflexivity|].
  apply N.leb_le in E. unfold isspace in H. unfold c_isspace.
  repeat rewrite ?orb_true_iff, ?andb_true_iff, ?N.leb_le, ?N.eqb_eq in *.
  lia.
Qed.

Lemma to_ascii_spaces (s : str) :
  all_space s -> Forall blankish (to_ascii s).
Proof.
  induction 1 as [|c s Hc _ IH]; [constructor|].
  cbn [to_ascii].
  destruct (isspace_ascii_or_more c Hc) as [[E Hb]|E]; rewrite E.
  - now constructor.
  - rewrite Hc. constructor; [now left|exact IH].
Qed.

Lemma blankish_no_underscore (s : str) :
  Forall blankish s -> existsb (char_eqb underscore) s = false.
Proof.
  induction 1 as [|c s Hc _ IH]; [reflexivity|].
  cbn [existsb]. rewrite IH, orb_false_r.
  unfold blankish, c_isspace in Hc. unfold char_eqb, underscore.
  apply N.eqb_neq.
  repeat rewrite ?orb_true_iff, ?andb_true_iff, ?N.leb_le, ?N.eqb_eq in Hc.
  lia.
Qed.

Lemma c_lstrip_suffix (s : str) :
  exists pre, s = pre ++ c_lstrip s
              /\ match c_lstrip s with
                 | c :: _ => c_isspace c = false
                 | [] => True
                 end.
Proof.
  induction s as [|c s (pre & E & H)]; [now exists []|].
  cbn [c_lstrip]. destruct (c_isspace c) eqn:Ec.
  - exists (c :: pre). split; [now rewrite <- app_comm_cons, <- E|exact H].
  - now exists [].
Qed.

Lemma c_lstrip_Forall (P : char -> Prop) (s : str) :
  Forall P s -> Forall P (c_lstrip s).
Proof.
  intros H. destruct (c_lstrip_suffix s) as (pre & E & _).
  rewrite E in H. now apply Forall_app in H.
Qed.

(** what is left of a blank text once stripped starts, if at all, with a
    control 0x1C-0x1F *)
Lemma c_strip_blank (s : str) :
  Forall blankish s ->
  match c_strip s with
  | c :: _ => (28 <= c <= 31)%N
  | [] => True
  end.
Proof.
  intros H. unfold c_strip.
  assert (Hall : Forall blankish (rev (c_lstrip (rev (c_lstrip s))))).
  { apply Forall_rev, c_lstrip_Forall, Forall_rev, c_lstrip_Forall, H. }
  destruct (c_lstrip_suffix s) as (_ & _ & Hhead).
  set (t := c_lstrip s) in *.
  destruct (c_lstrip_suffix (rev t)) as (pre & E & _).
  apply (f_equal (@rev _)) in E. rewrite rev_involutive, rev_app_distr in E.
  destruct (rev (c_lstrip (rev t))) as [|c r] eqn:Er; [exact I|].
  inversion Hall as [|? ? Hc _]; subst.
  rewrite E in Hhead. cbn [app] in Hhead.
  destruct Hc as [Hc|Hc]; [congruence|exact Hc].
Qed.

Lemma float_of_blank (s : str) : all_space s -> float_of_str s = None.
Proof.
  intros H. unfold float_of_str.
  pose proof (to_ascii_spaces H) as Ha.
  rewrite (blankish_no_underscore Ha).
  pose proof (c_strip_blank Ha) as Hs.
  destruct (c_strip (to_ascii s)) as [|c r]; [reflexivity|].
  assert (Hc : (c =? 45)%N = false /\ (c =? 43)%N = false
               /\ is_digit c = false /\ (c =? 46)%N = false
               /\ lower c = c /\ (c =? 105)%N = false
               /\ (c =? 110)%N = false).
  { unfold is_digit, lower.
    repeat split; try (apply N.eqb_neq; lia).
    - apply andb_false_iff. left. apply N.leb_gt. lia.
    - replace ((65 <=? c)%N) with false; [reflexivity|].
      symmetry. apply N.leb_gt. lia. }
  destruct Hc as (H1 & H2 & H3 & H4 & H5 & H6 & H7).
  unfold read_sign, char_eqb, minus, plus. rewrite H1, H2.
  unfold is_word. cbn [map str_eqb lit list_ascii_of_string N_of_ascii].
  rewrite H5. unfold char_eqb.
  cbn. rewrite H6, H7. cbn.
  unfold read_number. cbn [span_digits]. rewrite H3.
  unfold char_eqb, dot. rewrite H4. reflexivity.
Qed.

(** X10.  A line whose fourth field is empty or holds white space only
    gives no sample. *)
Theorem blank_fourth_field_no_sample
        (before after : list str) (line field : str) :
  is_skipped line = false ->
  nth_error (split comma (strip line)) 3 = Some field ->
  blank field = true ->
  for_line_in binary64 (before ++ line :: after) []
  = for_line_in binary64 (before ++ after) [].
Proof.
  intros Hskip Hfield Hblank. apply blank_all_space in Hblank.
  rewrite !for_line_in_app. f_equal. rewrite for_line_in_cons.
  unfold sample_of_line, fields. rewrite Hskip, Hfield.
  cbn [float_ binary64]. now rewrite float_of_blank.
Qed.

End BlankField.

Section Stray.

Import Binary64.

Lemma str_eqb_eq (a b : str) : str_eqb a b = true -> a = b.
Proof.
  revert b. induction a as [|x a IH]; intros [|y b]; cbn; try discriminate;
    [reflexivity|].
  intros H. apply andb_prop in H. destruct H as [H1 H2].
  apply N.eqb_eq in H1. subst. f_equal. now apply IH.
Qed.

Lemma stray_survives_to_ascii (s : str) (c : char) :
  In c s -> (c <=? 127)%N = true -> float_char c = false ->
  exists c', In c' (to_ascii s) /\ float_char c' = false.
Proof.
  intros Hin Hc Hf. induction s as [|d s IH]; [destruct Hin|].
  cbn [to_ascii].
  destruct (d <=? 127)%N eqn:Ed.
  - destruct Hin as [->|Hin]; [exists c; split; [now left|exact Hf]|].
    destruct (IH Hin) as (c' & H1 & H2). exists c'. split; [now right|exact H2].
  - destruct Hin as [->|Hin]; [congruence|].
    destruct (IH Hin) as (c' & H1 & H2).
    destruct (isspace d).
    + exists c'. split; [now right|exact H2].
    + destruct (to_decimal d).
      * exists c'. split; [now right|exact H2].
      * exists 63%N. split; [now left|reflexivity].
Qed.

Lemma drop_underscores_keeps (s : str) :
  forall prev s' c,
    drop_underscores prev s = Some s' ->
    In c s -> char_eqb c underscore = false -> In c s'.
Proof.
  induction s as [|d s IH]; intros prev s' c H Hin Hc; [destruct Hin|].
  cbn [drop_underscores] in H.
  destruct (char_eqb d underscore) eqn:Ed.
  - destruct Hin as [->|Hin]; [congruence|].
    destruct prev as [p|]; [|discriminate].
    destruct (is_digit p); [|discriminate].
    exact (IH _ _ _ H Hin Hc).
  - assert (Hk : forall t, option_map (cons d) (drop_underscores (Some d) s)
                           = Some t -> In c t).
    { intros t Ht.
      destruct (drop_underscores (Some d) s) as [u|] eqn:Eu; [|discriminate].
      injection Ht as <-.
      destruct Hin as [->|Hin]; [now left|right].
      exact (IH _ _ _ Eu Hin Hc). }
    destruct prev as [p|]; [|now apply Hk].
    destruct (char_eqb p underscore && negb (is_digit d)); [discriminate|].
    now apply Hk.
Qed.

Lemma c_lstrip_split (s : str) :
  exists pre, s = pre ++ c_lstrip s
              /\ Forall (fun c => c_isspace c = true) pre.
Proof.
  induction s as [|c s (pre & E & H)]; [now exists []|].
  cbn [c_lstrip]. destruct (c_isspace c) eqn:Ec.
  - exists (c :: pre). split; [now rewrite <- app_comm_cons, <- E|].
    now constructor.
  - now exists [].
Qed.

Lemma c_lstrip_keeps (s : str) (c : char) :
  In c s -> c_isspace c = false -> In c (c_lstrip s).
Proof.
  intros Hin Hc. destruct (c_lstrip_split s) as (pre & E & Hpre).
  rewrite E in Hin. apply in_app_or in Hin. destruct Hin as [Hin|Hin];
    [|exact Hin].
  rewrite Forall_forall in Hpre. rewrite (Hpre _ Hin) in Hc. discriminate.
Qed.

Lemma c_strip_keeps (s : str) (c : char) :
  In c s -> c_isspace c = false -> In c (c_strip s).
Proof.
  intros Hin Hc. unfold c_strip.
  apply in_rev. rewrite rev_involutive.
  apply c_lstrip_keeps; [|exact Hc].
  apply -> in_rev. now apply c_lstrip_keeps.
Qed.

Lemma span_digits_split (s : str) :
  exists pre, s = pre ++ snd (span_digits s)
              /\ Forall (fun c => float_char c = true) pre.
Proof.
  induction s as [|c s (pre & E & H)]; [now exists []|].
  cbn [span_digits]. destruct (is_digit c) eqn:Ec.
  - destruct (span_digits s) as [ds rest]. cbn [snd] in *.
    exists (c :: pre). split; [now rewrite <- app_comm_cons, <- E|].
    constructor; [|exact H]. unfold float_char. now rewrite Ec.
  - now exists [].
Qed.

Lemma read_sign_chars (s : str) :
  Forall (fun c => float_char c = true) (snd (read_sign s)) ->
  Forall (fun c => float_char c = true) s.
Proof.
  destruct s as [|c s]; [trivial|]. unfold read_sign.
  destruct (char_eqb c minus) eqn:E1.
  - apply N.eqb_eq in E1. subst. now constructor.
  - destruct (char_eqb c plus) eqn:E2; [|trivial].
    apply N.eqb_eq in E2. subst. now constructor.
Qed.

Lemma read_exponent_chars (s : str) (e : Z) :
  read_exponent s = Some e -> Forall (fun c => float_char c = true) s.
Proof.
  destruct s as [|c s]; [constructor|]. unfold read_exponent.
  destruct (is_e c) eqn:Ec; [|discriminate].
  intros H. constructor.
  - unfold is_e in Ec. apply N.eqb_eq in Ec.
    unfold float_char. rewrite Ec. apply orb_true_r.
  - apply read_sign_chars.
    destruct (read_sign s) as [eneg s'']. cbn [snd].
    destruct (span_digits_split s'') as (pre & E & Hpre).
    destruct (span_digits s'') as [ds rest]. cbn [snd] in E.
    destruct ds; [discriminate|]. destruct rest; [|discriminate].
    rewrite app_nil_r in E. now rewrite E.
Qed.

Lemma read_number_chars (neg : bool) (s : str) (x : float) :
  read_number neg s = Some x -> Forall (fun c => float_char c = true) s.
Proof.
  unfold read_number.
  destruct (span_digits_split s) as (pre & E & Hpre).
  destruct (span_digits s) as [ip s1]. cbn [snd] in E.
  intros H. rewrite E. apply Forall_app. split; [exact Hpre|].
  destruct s1 as [|c s1']; [constructor|].
  cbv beta iota in H.
  destruct (char_eqb c dot) eqn:Ec.
  - apply N.eqb_eq in Ec. subst c. constructor; [reflexivity|].
    destruct (span_digits_split s1') as (pre' & E' & Hpre').
    destruct (span_digits s1') as [fp s2]. cbn [snd] in E'.
    rewrite E'. apply Forall_app. split; [exact Hpre'|].
    destruct (ip ++ fp); [discriminate|].
    destruct (read_exponent s2) eqn:Ee; [|discriminate].
    exact (@read_exponent_chars _ _ Ee).
  - destruct (ip ++ []); [discriminate|].
    destruct (read_exponent (c :: s1')) eqn:Ee; [|discriminate].
    exact (@read_exponent_chars _ _ Ee).
Qed.

Lemma word_chars (w : string) (s : str) :
  Forall (fun c => existsb (char_eqb c) (lit "+-._einfaty") = true) (lit w) ->
  is_word w s = true -> Forall (fun c => float_char c = true) s.
Proof.
  intros Hw H. unfold is_word in H. apply str_eqb_eq in H.
  rewrite <- H in Hw. apply Forall_forall. intros c Hc.
  rewrite Forall_forall in Hw.
  specialize (Hw (lower c) (in_map lower _ _ Hc)).
  unfold float_char. rewrite Hw. apply orb_true_r.
Qed.

Lemma float_of_str_chars (s : str) (x : float) (c : char) :
  float_of_str s = Some x ->
  In c s -> (c <=? 127)%N = true -> float_char c = true.
Proof.
  intros H Hin Hc.
  destruct (float_char c) eqn:Hf; [reflexivity|exfalso].
  destruct (@stray_survives_to_ascii s c Hin Hc Hf) as (c' & Hin' & Hf').
  unfold float_of_str in H.
  assert (Hu : char_eqb c' underscore = false).
  { destruct (char_eqb c' underscore) eqn:E; [|reflexivity].
    apply N.eqb_eq in E. subst c'. discriminate. }
  assert (Hsp : c_isspace c' = false).
  { destruct (c_isspace c') eqn:E; [|reflexivity].
    unfold float_char in Hf'. rewrite E, orb_true_r in Hf'. discriminate. }
  assert (Hend : forall a', In c' a' ->
             (let '(neg, body) := read_sign (c_strip a') in
              if is_word "inf" body || is_word "infinity" body
              then Some (inf neg)
              else if is_word "nan" body then Some nan
                   else read_number neg body) = Some x -> False).
  { intros a' Ha' H'.
    assert (Hall : Forall (fun c => float_char c = true) (c_strip a')).
    { apply read_sign_chars.
      destruct (read_sign (c_strip a')) as [neg body]. cbn [snd].
      destruct (is_word "inf" body) eqn:E1;
        [apply (word_chars "inf"); [repeat constructor|exact E1]|].
      destruct (is_word "infinity" body) eqn:E2;
        [apply (word_chars "infinity"); [repeat constructor|exact E2]|].
      destruct (is_word "nan" body) eqn:E3;
        [apply (word_chars "nan"); [repeat constructor|exact E3]|].
      cbn [orb] in H'. exact (@read_number_chars _ _ _ H'). }
    rewrite Forall_forall in Hall.
    rewrite (Hall c' (@c_strip_keeps _ _ Ha' Hsp)) in Hf'. discriminate. }
  destruct (existsb (char_eqb underscore) (to_ascii s)).
  - destruct (drop_underscores None (to_ascii s)) as [a'|] eqn:Ed;
      [|discriminate].
    exact (Hend a' (@drop_underscores_keeps _ _ _ _ Ed Hin' Hu) H).
  - exact (Hend _ Hin' H).
Qed.

(** X11.  A line whose fourth field holds an ASCII character that no
    number is written with (anything but digits, blanks, signs, the point,
    the underscore and the letters of [e], [inf], [infinity], [nan]) gives
    no sample: a value with a unit after it is dropped. *)
Theorem stray_character_no_sample
        (before after : list str) (line field : str) :
  is_skipped line = false ->
  nth_error (split comma (strip line)) 3 = Some field ->
  has_stray field = true ->
  for_line_in binary64 (before ++ line :: after) []
  = for_line_in binary64 (before ++ after) [].
Proof.
  intros Hskip Hfield Hstray.
  apply existsb_exists in Hstray. destruct Hstray as (c & Hin & Hcf).
  apply andb_prop in Hcf. destruct Hcf as [Hc Hf].
  apply negb_true_iff in Hf.
  rewrite !for_line_in_app. f_equal. rewrite for_line_in_cons.
  unfold sample_of_line, fields. rewrite Hskip, Hfield.
  cbn [float_ binary64].
  destruct (float_of_str field) as [x|] eqn:E; [|reflexivity].
  rewrite (@float_of_str_chars field x c E Hin Hc) in Hf. discriminate.
Qed.

End Stray.

(** * The further properties at concrete inputs *)

Module MoreWitnesses.

Import Binary64.

Lemma spaces_around_a_line_ignored_witness :
  for_line_in binary64
    ([lit "1,100,10,50"] ++ (indent ++ lit "2,200,20,70" ++ indent) :: [])
    []
  = for_line_in binary64 ([lit "1,100,10,50"] ++ lit "2,200,20,70" :: [])
      [].
Proof.
  apply (@spaces_around_a_line_ignored binary64 [lit "1,100,10,50"] []
           indent (lit "2,200,20,70") indent); reflexivity.
Defined.

Lemma fewer_than_three_commas_no_sample_witness :
  for_line_in binary64 ([lit "1,100,10,50"] ++ short_row :: []) []
  = for_line_in binary64 ([lit "1,100,10,50"] ++ []) [].
Proof.
  apply (@fewer_than_three_commas_no_sample binary64
           [lit "1,100,10,50"] [] short_row).
  vm_compute. lia.
Defined.

Lemma line_endings_do_not_matter_witness :
  CR_free two_rows = true
  /\ for_line_in binary64 (file_lines (with_newline [CR; LF] two_rows)) []
     = for_line_in binary64 (file_lines two_rows) [].
Proof.
  split; [reflexivity|].
  apply (@line_endings_do_not_matter binary64 two_rows). reflexivity.
Defined.

Lemma nan_sample_poisons_statistics_witness :
  files (fresh (disk metrics nan_row)) metrics = Some nan_row
  /\ exit_status
       (fst (main binary64 [prog; metrics] (fresh (disk metrics nan_row))))
     = 0%Z.
Proof.
  split; [reflexivity|].
  rewrite (@nan_sample_poisons_statistics prog metrics
             (fresh (disk metrics nan_row)) nan_row eq_refl);
    [reflexivity|].
  vm_compute. reflexivity.
Defined.

Lemma std_dev_line_never_negative_witness :
  files (fresh (disk metrics two_rows)) metrics = Some two_rows
  /\ exists std : float,
       nonneg std = true /\ ~ In minus (format_2f std).
Proof.
  split; [reflexivity|].
  destruct (@std_dev_line_never_negative prog metrics
              (fresh (disk metrics two_rows)) two_rows eq_refl)
    as (std & _ & _ & _ & _ & _ & _ & H1 & H2).
  - vm_compute. discriminate.
  - exists std. now split.
Defined.

Lemma blank_fourth_field_no_sample_witness :
  for_line_in binary64 ([lit "1,100,10,50"] ++ blank_field_row :: []) []
  = for_line_in binary64 ([lit "1,100,10,50"] ++ []) [].
Proof.
  apply (@blank_fourth_field_no_sample
           [lit "1,100,10,50"] [] blank_field_row (lit " "));
    reflexivity.
Defined.

Lemma stray_character_no_sample_witness :
  for_line_in binary64 ([lit "1,100,10,50"] ++ unit_row :: []) []
  = for_line_in binary64 ([lit "1,100,10,50"] ++ []) [].
Proof.
  apply (@stray_character_no_sample
           [lit "1,100,10,50"] [] unit_row (lit "50ms")); reflexivity.
Defined.

Lemma at_most_one_sample_per_line_witness :
  exists values,
    read_batch_readiness_times binary64 metrics w_mixed
    = (Return values, accessed metrics w_mixed)
    /\ (List.length values <= List.length (file_lines mixed_log))%nat.
Proof.
  exact (@at_most_one_sample_per_line binary64 metrics w_mixed mixed_log
           eq_refl).
Defined.

End MoreWitnesses.
